(** * pixcat: grid layout, image resizing and the kitty graphics codec

    A shallow embedding of [pixcat/terminal.py], [pixcat/image.py] and
    [pixcat/grid.py].  Python integers are [Z], Python floats are IEEE
    binary64 values computed with the reference implementation of
    [SpecFloat], [str] values are byte strings (the UTF-8 encoding of the
    text, a lone surrogate, which UTF-8 has no encoding for, being kept as
    the three bytes its code point would take), exceptions are an explicit
    outcome, and the objects the code
    mutates (the image heap with its resize caches, the terminal streams,
    the alarm) live in an explicit world that every effectful function
    threads. *)

From Stdlib Require Import ZArith Lia Bool List String Ascii.
From Stdlib Require Import SpecFloat DecimalString.
From stdpp Require Import gmap strings list.

Open Scope Z_scope.

(** ** Python outcomes *)

Module Py.

(** The exceptions the three modules can raise or see raised. *)
Inductive exn : Type :=
| ZeroDivisionError
| OverflowError
| ValueError
| AssertionError
| AttributeError
| IndexError
| KeyError
| TypeError
| RecursionError
| KittyAnswerError (from_code answer : string)
| KittyAnswerTimeout
| UnicodeEncodeError
| ExternalError (name : string).

(** Outcome of running a piece of code: a value, a raised exception, or no
    outcome at all ([Hang]: a loop that does not finish, or a read that
    blocks for ever).  [Hang] is not an exception: no [except] sees it. *)
Inductive result (A : Type) : Type :=
| Ok (a : A)
| Raise (e : exn)
| Hang.
Arguments Ok {A} a.
Arguments Raise {A} e.
Arguments Hang {A}.

#[export] Instance result_ret : MRet result := fun A a => Ok a.
#[export] Instance result_bind : MBind result := fun A B f m =>
  match m with
  | Ok a => f a
  | Raise e => Raise e
  | Hang => Hang
  end.

Definition is_ok {A} (r : result A) : bool :=
  match r with Ok _ => true | _ => false end.

Definition py_assert (b : bool) : result unit :=
  if b then Ok tt else Raise AssertionError.

(** ** Floats

    [int / int], [float * int], [int / float], [math.ceil], [math.floor]. *)

Definition prec : Z := 53.
Definition emax : Z := 1024.

Abbreviation float := spec_float.

(** [float(n)]: the nearest binary64 value, ties to even; an integer that
    rounds beyond the largest finite value raises [OverflowError]. *)
Definition float_of_int (n : Z) : result float :=
  match binary_normalize prec emax n 0 false with
  | S754_infinity _ => Raise OverflowError
  | f => Ok f
  end.

(** The integer [n] as an exact (possibly wider than 53 bits) mantissa. *)
Definition exact_int (n : Z) : float :=
  match n with
  | Z0 => S754_zero false
  | Zpos p => S754_finite false p 0
  | Zneg p => S754_finite true p 0
  end.

(** [a / b] on integers: the correctly rounded quotient of the two exact
    integers. *)
Definition int_truediv (a b : Z) : result float :=
  if b =? 0 then Raise ZeroDivisionError
  else match SFdiv prec emax (exact_int a) (exact_int b) with
       | S754_infinity _ => Raise OverflowError
       | f => Ok f
       end.

(** [x * n] with [x] a float and [n] an integer: [n] is converted first;
    the product itself never raises (it may be infinite). *)
Definition float_mul_int (x : float) (n : Z) : result float :=
  y ← float_of_int n; Ok (SFmul prec emax x y).

(** [n / y] with [n] an integer and [y] a float. *)
Definition int_div_float (n : Z) (y : float) : result float :=
  x ← float_of_int n;
  match y with
  | S754_zero _ => Raise ZeroDivisionError
  | _ => Ok (SFdiv prec emax x y)
  end.

(** [math.floor(x)] *)
Definition floor (x : float) : result Z :=
  match x with
  | S754_zero _ => Ok 0
  | S754_infinity _ => Raise OverflowError
  | S754_nan => Raise ValueError
  | S754_finite s m e =>
      let v := if s then Zneg m else Zpos m in
      Ok (if 0 <=? e then v * 2 ^ e else v / 2 ^ (- e))
  end.

(** [math.ceil(x)] *)
Definition ceil (x : float) : result Z :=
  match x with
  | S754_zero _ => Ok 0
  | S754_infinity _ => Raise OverflowError
  | S754_nan => Raise ValueError
  | S754_finite s m e =>
      let v := if s then Zneg m else Zpos m in
      Ok (if 0 <=? e then v * 2 ^ e else - ((- v) / 2 ^ (- e)))
  end.

(** The literal [2.0]. *)
Definition two : float := S754_finite false 4503599627370496 (-51).

(** [x or d] for an [Optional[int]]: [None] and [0] are falsy. *)
Definition int_or (x : option Z) (d : Z) : Z :=
  match x with
  | Some v => if v =? 0 then d else v
  | None => d
  end.

(** Truthiness of an [Optional[int]]. *)
Definition truthy (x : option Z) : bool :=
  match x with
  | Some v => negb (v =? 0)
  | None => false
  end.

(** ** Strings *)

(** [str(n)] for an integer. *)
Definition str_of_int (n : Z) : string :=
  NilZero.string_of_int (Z.to_int n).

(** [sep.join(l)] *)
Fixpoint join (sep : string) (l : list string) : string :=
  match l with
  | [] => EmptyString
  | [x] => x
  | x :: rest => x +:+ sep +:+ join sep rest
  end.

(** [needle in hay] *)
Fixpoint contains (needle hay : string) : bool :=
  String.prefix needle hay ||
  match hay with
  | EmptyString => false
  | String _ rest => contains needle rest
  end.

(** [s * n] *)
Definition str_repeat (s : string) (n : Z) : string :=
  String.concat EmptyString (replicate (Z.to_nat n) s).

(** [s.split("\n")]: never empty. *)
Fixpoint split_nl (s : string) : list string :=
  match s with
  | EmptyString => [EmptyString]
  | String c rest =>
      if Ascii.eqb c "010"%char then EmptyString :: split_nl rest
      else match split_nl rest with
           | [] => [String c EmptyString]
           | l :: ls => String c l :: ls
           end
  end.

(** [l[:n]] *)
Definition slice_to {A} (l : list A) (n : Z) : list A :=
  if 0 <=? n then take (Z.to_nat n) l
  else take (Z.to_nat (Z.of_nat (length l) + n)) l.

(** Length of the line boundary at the head of [s], if there is one:
    LF, CR, CR LF, VT, FF, FS, GS, RS, NEL, LS and PS, as [str.splitlines]
    recognises them (the last three in their UTF-8 encoding). *)
Definition boundary (s : string) : option nat :=
  match s with
  | String "013" (String "010" _) => Some 2%nat
  | String "010" _ | String "013" _ | String "011" _ | String "012" _
  | String "028" _ | String "029" _ | String "030" _ => Some 1%nat
  | String "194" (String "133" _) => Some 2%nat
  | String "226" (String "128" (String "168" _))
  | String "226" (String "128" (String "169" _)) => Some 3%nat
  | _ => None
  end.

(** [splitlines] with the line being read kept in [cur] (reversed) and
    [skip] bytes of a boundary still to pass over. *)
Fixpoint splitlines_aux (s : string) (cur : list ascii) (skip : nat)
  : list string :=
  match s with
  | EmptyString =>
      match cur with
      | [] => []
      | _ => [string_of_list_ascii (rev cur)]
      end
  | String c rest =>
      match skip with
      | S k => splitlines_aux rest cur k
      | O =>
          match boundary s with
          | Some n =>
              string_of_list_ascii (rev cur)
                :: splitlines_aux rest [] (Nat.pred n)
          | None => splitlines_aux rest (c :: cur) 0
          end
      end
  end.

(** [s.splitlines()] *)
Definition splitlines (s : string) : list string := splitlines_aux s [] 0.

(** [max(l, key=key)]: the first element with the largest key. *)
Fixpoint max_by {A} (key : A → Z) (best : A) (l : list A) : A :=
  match l with
  | [] => best
  | x :: rest => max_by key (if key best <? key x then x else best) rest
  end.

Definition py_max {A} (key : A → Z) (l : list A) : result A :=
  match l with
  | [] => Raise ValueError
  | x :: rest => Ok (max_by key x rest)
  end.

(** ** Encoding

    [bytes(s, "utf-8")] raises [UnicodeEncodeError] when [s] holds a
    surrogate, a code point from U+D800 to U+DFFF: in the bytes of [s] such
    a code point is the byte ED followed by a byte from A0 to BF, a pair no
    other code point gives. *)

Fixpoint has_surrogate (s : string) : bool :=
  match s with
  | EmptyString => false
  | String a rest =>
      (Ascii.eqb a "237"
       && match rest with
          | String b _ =>
              (160 <=? N_of_ascii b)%N && (N_of_ascii b <=? 191)%N
          | EmptyString => false
          end)
      || has_surrogate rest
  end.

(** ** base64

    [base64.b64encode] on the bytes of a string. *)

Definition b64_alphabet : string :=
  "ABCDEFGHIJKLMNOPQRSTUVWXYZabcdefghijklmnopqrstuvwxyz0123456789+/".

Definition b64_char (n : N) : ascii :=
  match String.get (N.to_nat n) b64_alphabet with
  | Some c => c
  | None => "="%char
  end.

Fixpoint b64encode_bytes (bs : list N) : list ascii :=
  match bs with
  | [] => []
  | [a] =>
      [b64_char (a / 4); b64_char ((a mod 4) * 16); "="%char; "="%char]
  | [a; b] =>
      [b64_char (a / 4); b64_char ((a mod 4) * 16 + b / 16);
       b64_char ((b mod 16) * 4); "="%char]
  | a :: b :: c :: rest =>
      b64_char (a / 4) :: b64_char ((a mod 4) * 16 + b / 16)
        :: b64_char ((b mod 16) * 4 + c / 64) :: b64_char (c mod 64)
        :: b64encode_bytes rest
  end%N.

Definition b64encode (s : string) : string :=
  string_of_list_ascii
    (b64encode_bytes (map N_of_ascii (list_ascii_of_string s))).

End Py.
Export Py.


(** ** terminal.py: the graphics escape codec *)

Module Terminal.

(** A control value: the codec receives integers and strings. *)
Inductive value : Type :=
| VInt (n : Z)
| VStr (s : string).

#[export] Instance value_eq_dec : EqDecision value.
Proof. solve_decision. Defined.

(** [str(v)], as an f-string formats it. *)
Definition str (v : value) : string :=
  match v with
  | VInt n => str_of_int n
  | VStr s => s
  end.

(** A Python [dict]: keys are unique and keep their insertion order. *)
Fixpoint dict_get {K V} `{EqDecision K} (d : list (K * V)) (k : K)
  : option V :=
  match d with
  | [] => None
  | (k', v) :: rest => if decide (k' = k) then Some v else dict_get rest k
  end.

(** [d[k] = v]: an existing key keeps its place, a new one goes last. *)
Fixpoint dict_set {K V} `{EqDecision K} (d : list (K * V)) (k : K) (v : V)
  : list (K * V) :=
  match d with
  | [] => [(k, v)]
  | (k', v') :: rest =>
      if decide (k' = k) then (k, v) :: rest
      else (k', v') :: dict_set rest k v
  end.

(** What the terminal reports about itself: its size in cells (blessed's
    [width] and [height]) and in pixels (the [TIOCGWINSZ] ioctl, which
    fails when stdout is no terminal). *)
Record metrics : Type := {
  width : Z;
  height : Z;
  px_size : result (Z * Z)
}.

Definition px_width (m : metrics) : result Z := p ← px_size m; Ok p.1.
Definition px_height (m : metrics) : result Z := p ← px_size m; Ok p.2.

(** [a // b] *)
Definition floordiv (a b : Z) : result Z :=
  if b =? 0 then Raise ZeroDivisionError else Ok (a / b).

Definition cell_px_size (m : metrics) : result (Z * Z) :=
  pw ← px_width m; cw ← floordiv pw (width m);
  ph ← px_height m; ch ← floordiv ph (height m);
  Ok (cw, ch).

Definition cell_px_width (m : metrics) : result Z :=
  p ← cell_px_size m; Ok p.1.
Definition cell_px_height (m : metrics) : result Z :=
  p ← cell_px_size m; Ok p.2.

(** What a read of one character from the terminal can meet: a character
    (one code point, as its bytes), or the pending alarm running out. *)
Inductive event : Type :=
| Key (c : string)
| Deadline.

(** The terminal as [run_code] sees it: what was printed, what is still to
    come on stdin, and the seconds of the pending [signal.alarm] (0: none). *)
Record tty : Type := {
  out : list string;
  input : list event;
  alarm : N;
  screen : metrics
}.

Definition print (s : string) (t : tty) : tty :=
  {| out := out t ++ [s]; input := input t; alarm := alarm t;
     screen := screen t |}.

Definition set_alarm (n : N) (t : tty) : tty :=
  {| out := out t; input := input t; alarm := n; screen := screen t |}.

Definition set_input (i : list event) (t : tty) : tty :=
  {| out := out t; input := i; alarm := alarm t; screen := screen t |}.

Definition backslash : string := String "092" EmptyString.

(** The [while True] loop of [run_code]: one character per round, until the
    backslash.  The alarm handler raises [KittyAnswerTimeout] in the middle
    of the read; with nothing left to read the loop never ends. *)
Fixpoint read_answer (evs : list event) (chars : list string) (t : tty)
  : result (list string) * tty :=
  match evs with
  | [] => (Hang, set_input [] t)
  | Key c :: rest =>
      let chars := chars ++ [c] in
      if decide (c = backslash) then (Ok chars, set_input rest t)
      else read_answer rest chars t
  | Deadline :: rest =>
      if (alarm t =? 0)%N then read_answer rest chars t
      else (Raise KittyAnswerTimeout, set_alarm 0 (set_input rest t))
  end.

(** The constants of [data.py]: the bounds of the id space, the escape
    character, the table from control names to protocol keys (with, for
    some, a table of values), and the actions the terminal answers. *)
Class Data : Type := {
  MIN_ID : Z;
  MAX_ID : Z;
  ESC : string;
  IMAGE_CONTROLS : list (string * (string * list (value * value)));
  ACTIONS_WITH_ANSWER : list value
}.

(** The capabilities of the terminal library the code calls: the strings
    of [move_x], [move] and [red], and the cursor position [get_location]
    reads back. *)
Class Blessed : Type := {
  move_x : Z → string;
  move : Z → Z → string;
  red : string → string;
  get_location : tty → Z * Z
}.

Section Codec.

Context `{!Data}.

Definition controls : Type := list (string * value).

(** [if "id" in controls: assert MIN_ID <= controls["id"] <= MAX_ID] *)
Definition check_id (c : controls) : result unit :=
  match dict_get c "id"%string with
  | None => Ok tt
  | Some (VInt i) => py_assert ((MIN_ID <=? i) && (i <=? MAX_ID))
  | Some (VStr _) => Raise TypeError
  end.

(** [controls["offset_x"] = controls.get("offset_x", 0) + 1] *)
Definition bump_offset_x (c : controls) : result controls :=
  match default (VInt 0) (dict_get c "offset_x"%string) with
  | VInt x => Ok (dict_set c "offset_x"%string (VInt (x + 1)))
  | VStr _ => Raise TypeError
  end.

(** One item of the [real_keys] comprehension. *)
Definition real_pair (kv : string * value) : result (string * value) :=
  match dict_get IMAGE_CONTROLS kv.1 with
  | None => Raise KeyError
  | Some (key, []) => Ok (key, kv.2)
  | Some (key, table) =>
      match dict_get table kv.2 with
      | Some v => Ok (key, v)
      | None => Raise KeyError
      end
  end.

Fixpoint real_keys (items : controls) (acc : controls) : result controls :=
  match items with
  | [] => Ok acc
  | kv :: rest => p ← real_pair kv; real_keys rest (dict_set acc p.1 p.2)
  end.

Definition key_value (kv : string * value) : string :=
  kv.1 +:+ "=" +:+ str kv.2.

(** [if payload: payload = str(base64.b64encode(bytes(payload, "utf-8")),
    "utf-8")] *)
Definition encode_payload (payload : string) : result string :=
  if decide (payload = EmptyString) then Ok payload
  else if has_surrogate payload then Raise UnicodeEncodeError
  else Ok (b64encode payload).

Definition get_code (payload : string) (c : controls) : result string :=
  _ ← check_id c;
  c ← bump_offset_x c;
  real ← real_keys c [];
  let keys_str := join "," (map key_value real) in
  payload ← encode_payload payload;
  Ok (ESC +:+ "_G" +:+ keys_str +:+ ";" +:+ payload +:+ ESC +:+ backslash).

Definition run_code (payload : string) (timeout : N) (c : controls)
  (t : tty) : result unit * tty :=
  match get_code payload c with
  | Ok code =>
      let t := print (code +:+ String "010" EmptyString) t in
      if bool_decide
           (default (VStr "transmit") (dict_get c "action"%string)
              ∈ ACTIONS_WITH_ANSWER)
      then
        let t := set_alarm timeout t in
        match read_answer (input t) [] t with
        | (Ok chars, t) =>
            let t := set_alarm 0 t in
            let answer := join "" chars in
            if negb (bool_decide (answer = EmptyString))
               && negb (contains ";OK" answer)
            then (Raise (KittyAnswerError code answer), t)
            else (Ok tt, t)
        | (Raise e, t) => (Raise e, t)
        | (Hang, t) => (Hang, t)
        end
      else (Ok tt, t)
  | Raise e => (Raise e, t)
  | Hang => (Hang, t)
  end.

(** [detect_support] *)
Definition detect_support (t : tty) : result bool * tty :=
  match run_code "" 3 [("action", VStr "query"); ("id", VInt 1)]%string t with
  | (Raise (KittyAnswerError _ _), t) => (Ok true, t)
  | (Raise KittyAnswerTimeout, t) => (Ok false, t)
  | (Ok _, t) => (Ok false, t)
  | (Raise e, t) => (Raise e, t)
  | (Hang, t) => (Hang, t)
  end.

End Codec.

(** A control table in the shape of [data.IMAGE_CONTROLS], with the keys
    of the kitty graphics protocol, to run the codec on. *)
Definition kitty_controls : list (string * (string * list (value * value))) :=
  [ ("action", ("a", [ (VStr "transmit", VStr "t");
                       (VStr "transmit+display", VStr "T");
                       (VStr "query", VStr "q");
                       (VStr "display", VStr "p");
                       (VStr "delete", VStr "d") ]));
    ("medium", ("t", [ (VStr "direct", VStr "d"); (VStr "file", VStr "f");
                       (VStr "tempfile", VStr "t");
                       (VStr "shared", VStr "s") ]));
    ("format", ("f", [ (VStr "rgb", VInt 24); (VStr "rgba", VInt 32);
                       (VStr "png", VInt 100) ]));
    ("id", ("i", []));
    ("z_index", ("z", []));
    ("offset_x", ("X", []));
    ("offset_y", ("Y", []));
    ("crop_w", ("w", []));
    ("crop_h", ("h", []));
    ("del_data_target", ("d", [ (VStr "id", VStr "i") ])) ]%string.

Definition kitty_esc : string := String "027" EmptyString.

Definition kitty_answering : list value :=
  [VStr "transmit"; VStr "transmit+display"; VStr "query"]%string.

#[export] Instance kitty_data : Data := {|
  MIN_ID := 1;
  MAX_ID := 4294967295;
  ESC := kitty_esc;
  IMAGE_CONTROLS := kitty_controls;
  ACTIONS_WITH_ANSWER := kitty_answering
|}.

End Terminal.


(** ** size.py: the size values the other modules consume

    The module itself is not part of the sources at hand: a size is an
    opaque value, and the operations below are the ones [image.py] and
    [grid.py] apply to it. *)

Module Size.
Import Terminal.

Class SizeValue (T : Type) : Type := {
  (** [HSize(n)], [VSize(n)], [HSize(cells=n)], [VSize(cells=n)] *)
  HSize : Z → T;
  VSize : Z → T;
  HSize_cells : Z → T;
  VSize_cells : Z → T;
  (** [TermHSize()] *)
  TermHSize : metrics → T;
  (** [s.px], [s.cells], [bool(s)], [type(s)(0)] *)
  px : T → Z;
  cells : T → Z;
  truth : T → bool;
  zero_like : T → T;
  (** [a + b], [a - b], [a / 2], [math.floor(a)], [a > b] *)
  add : T → T → T;
  sub : T → T → T;
  half : T → T;
  floor_size : T → T;
  gt : T → T → bool;
  (** [n + a], [a - n] and [n / 2 - a / 2] with [n] a plain number *)
  int_add : Z → T → T;
  sub_int : T → Z → T;
  int_sub : Z → T → T;
  int_half_sub_half : Z → T → T
}.

End Size.

(** ** image.py: resizing with a per-image cache *)

Module Image.
Import Terminal Size.

(** The bitmap library (PIL) as the code uses it: a bitmap has a size, can
    be scaled with a resampling filter and saved to a temporary PNG; the
    filter is the module attribute named by the upper-cased [resample]
    argument.  Any of the three calls may raise. *)
Class Pil (bitmap filter : Type) : Type := {
  bitmap_size : bitmap → Z * Z;
  pil_resize : bitmap → Z * Z → filter → result bitmap;
  resample_filter : string → result filter;
  save_png : bitmap → result string
}.

(** The successive results of [random.randint(min_id, max_id)]. *)
Class Random : Type := {
  randint : nat → Z
}.

(** [_negative_col_to_px] and [_negative_row_to_px] *)
Definition _negative_col_to_px (m : metrics) (num : Z) : result Z :=
  if 0 <=? num then Ok num
  else cw ← cell_px_width m; Ok (cw * Z.abs num).

Definition _negative_row_to_px (m : metrics) (num : Z) : result Z :=
  if 0 <=? num then Ok num
  else ch ← cell_px_height m; Ok (ch * Z.abs num).

(** [math.ceil((a / b) * c)] and [math.floor((a / b) * c)] *)
Definition scale_ceil (a b c : Z) : result Z :=
  q ← int_truediv a b; p ← float_mul_int q c; ceil p.

Definition scale_floor (a b c : Z) : result Z :=
  q ← int_truediv a b; p ← float_mul_int q c; floor p.

(** The height-first and the width-first computation shared by the two
    scaling branches of [resize]: [bound_w] and [bound_h] are the minima
    when upscaling and the maxima when downscaling. *)
Definition height_first (img_w img_h bound_w max_h : Z) : result (Z * Z) :=
  c ← scale_ceil bound_w img_w img_h;
  let h := Z.min max_h c in
  w ← scale_floor h img_h img_w;
  Ok (w, h).

Definition width_first (img_w img_h bound_h max_w : Z) : result (Z * Z) :=
  c ← scale_ceil bound_h img_h img_w;
  let w := Z.min max_w c in
  h ← scale_floor w img_w img_h;
  Ok (w, h).

(** The bounds of [resize] in pixels, after the defaults, the cell
    conversions and the two assertions. *)
Definition bounds (m : metrics) (img_w img_h min_w min_h : Z)
  (max_w max_h : option Z) : result (Z * Z * Z * Z) :=
  let max_w := int_or max_w img_w in
  let max_h := int_or max_h img_h in
  min_w ← _negative_col_to_px m min_w;
  min_h ← _negative_row_to_px m min_h;
  max_w ← _negative_col_to_px m max_w;
  max_h ← _negative_row_to_px m max_h;
  _ ← py_assert (min_w <=? max_w);
  _ ← py_assert (min_h <=? max_h);
  Ok (min_w, min_h, max_w, max_h).

Definition upscales (img_w img_h min_w min_h max_w max_h : Z) : bool :=
  ((img_w <? min_w) || (img_h <? min_h)) && (img_w <? max_w)
  && (img_h <? max_h).

Definition downscales (img_w img_h max_w max_h : Z) : bool :=
  (img_w >? max_w) || (img_h >? max_h).

(** The size [resize] decides on: [None] is the [return self] branch. *)
Definition new_size (m : metrics) (img_w img_h min_w min_h : Z)
  (max_w max_h : option Z) (stretch : bool) : result (option (Z * Z)) :=
  '(min_w, min_h, max_w, max_h) ← bounds m img_w img_h min_w min_h max_w max_h;
  if upscales img_w img_h min_w min_h max_w max_h then
    if stretch then Ok (Some (min_w, min_h))
    else if min_w >=? min_h then
      wh ← height_first img_w img_h min_w max_h; Ok (Some wh)
    else
      wh ← width_first img_w img_h min_h max_w; Ok (Some wh)
  else if downscales img_w img_h max_w max_h then
    if stretch then Ok (Some (max_w, max_h))
    else if max_w >=? max_h then
      wh ← height_first img_w img_h max_w max_h; Ok (Some wh)
    else
      wh ← width_first img_w img_h max_h max_w; Ok (Some wh)
  else Ok None.

Section Objects.

Context {bitmap filter : Type} `{!Pil bitmap filter}.
Context {T : Type} `{!SizeValue T}.
Context `{!Data} `{!Blessed} `{!Random}.

(** An [Image] object.  References to images are positions in the heap;
    the cache of an image maps a target size to the reference of the image
    made for it. *)
Record Image : Type := {
  id : Z;
  origin : bitmap;
  _pil_image : bitmap;
  _resized_cache : gmap (Z * Z) nat
}.

(** Everything the code shares and mutates: the image objects, the
    class-level set of used ids, how many random numbers were drawn, the
    scalings PIL was asked for (source image, target size, filter), and the
    terminal. *)
Record world : Type := {
  heap : list Image;
  used_ids : gset Z;
  draws : nat;
  scaled : list (nat * (Z * Z) * filter);
  term : tty
}.

(** Effectful code: a function of the world that gives an outcome and the
    world it leaves. *)
Definition M (A : Type) : Type := world → result A * world.

#[export] Instance M_ret : MRet M := fun A a w => (Ok a, w).
#[export] Instance M_bind : MBind M := fun A B f m w =>
  match m w with
  | (Ok a, w) => f a w
  | (Raise e, w) => (Raise e, w)
  | (Hang, w) => (Hang, w)
  end.

(** A pure outcome inside effectful code. *)
Definition lift {A} (r : result A) : M A := fun w => (r, w).

(** [try: body except Exception as err: handler(err)] *)
Definition try_except {A} (body : M A) (handler : exn → M A) : M A :=
  fun w =>
    match body w with
    | (Raise e, w) => handler e w
    | other => other
    end.

Definition get_image (self : nat) : M Image := fun w =>
  match heap w !! self with
  | Some img => (Ok img, w)
  | None => (Hang, w)
  end.

Definition on_term {A} (f : tty → result A * tty) : M A := fun w =>
  let '(r, t) := f (term w) in
  (r, {| heap := heap w; used_ids := used_ids w; draws := draws w;
         scaled := scaled w; term := t |}).

(** The [while random_id in self.used_ids] loop, from draw number [n]. *)
Fixpoint draw_unused (fuel : nat) (used : gset Z) (n : nat)
  : option (Z * nat) :=
  match fuel with
  | O => None
  | S fuel =>
      let r := randint n in
      if bool_decide (r ∈ used) then draw_unused fuel used (S n)
      else Some (r, S n)
  end.

(** [_get_id].  When the set is full, the assignment [self.used_ids = set()]
    gives the new instance a set of its own: the draw is accepted at once
    and the class-level set stays as it is. *)
Definition _get_id (fuel : nat) : M Z := fun w =>
  if MAX_ID <=? Z.of_nat (size (used_ids w)) then
    (Ok (randint (draws w)),
     {| heap := heap w; used_ids := used_ids w; draws := S (draws w);
        scaled := scaled w; term := term w |})
  else
    match draw_unused fuel (used_ids w) (draws w) with
    | Some (r, n) =>
        (Ok r,
         {| heap := heap w; used_ids := {[r]} ∪ used_ids w; draws := n;
            scaled := scaled w; term := term w |})
    | None => (Hang, w)
    end.

(** A new object on the heap; its reference is returned. *)
Definition alloc (img : Image) : M nat := fun w =>
  (Ok (length (heap w)),
   {| heap := heap w ++ [img]; used_ids := used_ids w; draws := draws w;
      scaled := scaled w; term := term w |}).

(** [Image(source)] for a source that is a bitmap already: a new object
    with an empty cache. *)
Definition new_image (fuel : nat) (source : bitmap) : M nat :=
  i ← _get_id fuel;
  alloc {| id := i; origin := source; _pil_image := source;
           _resized_cache := ∅ |}.

(** [self._pil_image.resize((w, h), resample)], noting the request. *)
Definition scale (self : nat) (img : Image) (wh : Z * Z) (f : filter)
  : M bitmap := fun w =>
  (pil_resize (_pil_image img) wh f,
   {| heap := heap w; used_ids := used_ids w; draws := draws w;
      scaled := scaled w ++ [(self, wh, f)]; term := term w |}).

(** [self._resized_cache[(w, h)] = image] *)
Definition cache_put (self : nat) (wh : Z * Z) (image : nat) : M unit :=
  fun w =>
    match heap w !! self with
    | Some img =>
        (Ok tt,
         {| heap := <[self := {| id := id img; origin := origin img;
                                 _pil_image := _pil_image img;
                                 _resized_cache :=
                                   <[wh := image]> (_resized_cache img) |}]>
                      (heap w);
            used_ids := used_ids w; draws := draws w; scaled := scaled w;
            term := term w |})
    | None => (Hang, w)
    end.

(** The size [resize] decides on for the image [self] in world [w]. *)
Definition target (w : world) (self : nat) (min_w min_h : Z)
  (max_w max_h : option Z) (stretch : bool) : result (option (Z * Z)) :=
  match heap w !! self with
  | Some img =>
      new_size (screen (term w)) (bitmap_size (_pil_image img)).1
        (bitmap_size (_pil_image img)).2 min_w min_h max_w max_h stretch
  | None => Hang
  end.

Definition decide_size (self : nat) (min_w min_h : Z)
  (max_w max_h : option Z) (stretch : bool) : M (option (Z * Z)) :=
  fun w => (target w self min_w min_h max_w max_h stretch, w).

(** The end of [resize], when no image was made yet for the size decided:
    scale, wrap the bitmap in a new [Image], note it in the cache. *)
Definition make_resized (fuel : nat) (self : nat) (img : Image)
  (wh : Z * Z) (resample : string) : M nat :=
  f ← lift (resample_filter resample);
  scaled ← scale self img wh f;
  image ← new_image fuel scaled;
  _ ← cache_put self wh image;
  mret image.

Definition resize (fuel : nat) (self : nat) (min_w min_h : Z)
  (max_w max_h : option Z) (stretch : bool) (resample : string) : M nat :=
  img ← get_image self;
  decided ← decide_size self min_w min_h max_w max_h stretch;
  match decided with
  | None => mret self
  | Some wh =>
      match _resized_cache img !! wh with
      | Some cached => mret cached
      | None => make_resized fuel self img wh resample
      end
  end.

(** Any number of [resize] calls, on any images, whatever their outcome. *)
Inductive resizes : world → world → Prop :=
| resizes_refl w : resizes w w
| resizes_step w1 w2 w3 fuel self min_w min_h max_w max_h stretch resample r :
    resize fuel self min_w min_h max_w max_h stretch resample w1 = (r, w2) →
    resizes w2 w3 →
    resizes w1 w3.

(** Every object of [w] is still there in [w'], with the same bitmap and
    with all the cache entries it had. *)
Definition cache_grows (w w' : world) : Prop :=
  ∀ s img, heap w !! s = Some img →
    ∃ img', heap w' !! s = Some img'
            ∧ _pil_image img' = _pil_image img
            ∧ ∀ wh r, _resized_cache img !! wh = Some r →
                      _resized_cache img' !! wh = Some r.

Definition thumbnail (fuel : nat) (self : nat) (side : Z) (stretch : bool)
  (resample : string) : M nat :=
  resize fuel self side side (Some side) (Some side) stretch resample.

(** [width] and [height] *)
Definition width_of (img : Image) : T := HSize (bitmap_size (_pil_image img)).1.
Definition height_of (img : Image) : T := VSize (bitmap_size (_pil_image img)).2.

(** [TERM.print_esc]: the arguments, with nothing between or after them *)
Definition print_esc (args : list string) : M unit :=
  on_term (fun t => (Ok tt, print (String.concat EmptyString args) t)).

(** [TERM.move_relative(y, x)] and its two shorthands *)
Definition move_relative (y x : Z) (t : tty) : string :=
  let '(cursor_y, cursor_x) := get_location t in
  if y <? 0 then move (cursor_y + y - 1) (cursor_x + x - 1)
  else str_repeat (String "010" EmptyString) y +:+ move_x (cursor_x + x - 1).

Definition move_relative_x (x : Z) (t : tty) : string := move_relative 0 x t.
Definition move_relative_y (y : Z) (t : tty) : string := move_relative y 0 t.

Definition the_term : M tty := fun w => (Ok (term w), w).

(** [show], for a call that leaves [x], [y], [crop_w] and [crop_h] at
    their defaults. *)
Definition show (self : nat) (z : Z) (relative_x relative_y : T)
  (align : string) : M nat :=
  _ ← lift (py_assert (bool_decide (align ∈ ["left"; "center"; "right"]%string)));
  img ← get_image self;
  t ← the_term;
  placed ←
    (if decide (align = "center"%string) then
       pw ← lift (px_width (screen t));
       let to_add := int_half_sub_half pw (width_of img) in
       mret (add relative_x (floor_size to_add),
             add (HSize 0) (sub to_add (floor_size to_add)))
     else if decide (align = "right"%string) then
       pw ← lift (px_width (screen t));
       let to_add := int_sub pw (width_of img) in
       mret (add relative_x (floor_size to_add),
             add (HSize 0) (sub to_add (floor_size to_add)))
     else mret (relative_x, HSize 0));
  let '(relative_x, offset_x) := placed in
  _ ← (if truth relative_x then
         t ← the_term; print_esc [move_relative_x (cells relative_x) t]
       else mret tt);
  _ ← (if truth relative_y then
         t ← the_term; print_esc [move_relative_y (cells relative_y) t]
       else mret tt);
  payload ← lift (save_png (_pil_image img));
  _ ← on_term (run_code payload 3
                 [("offset_x", VInt (px offset_x));
                  ("offset_y", VInt (px (VSize 0)));
                  ("crop_w", VInt (px (HSize 0)));
                  ("crop_h", VInt (px (VSize 0)));
                  ("z_index", VInt z);
                  ("action", VStr "transmit+display");
                  ("medium", VStr "tempfile");
                  ("format", VStr "png");
                  ("id", VInt (id img))]%string);
  mret self.

End Objects.

Arguments Image bitmap : clear implicits.
Arguments world bitmap filter : clear implicits.
Arguments M bitmap filter A : clear implicits.

(** How the two scaling branches relate the size they decide on to the
    bound that leads: the other side is the ceiling of the scaled side,
    cut at its maximum, and the leading side is then the floor of what the
    aspect ratio gives back. *)
Definition height_first_of (img_w img_h bound_w max_h : Z) (wh : Z * Z)
  : Prop :=
  ∃ c, scale_ceil bound_w img_w img_h = Ok c
       ∧ wh.2 = Z.min max_h c
       ∧ scale_floor wh.2 img_h img_w = Ok wh.1.

Definition width_first_of (img_w img_h bound_h max_w : Z) (wh : Z * Z)
  : Prop :=
  ∃ c, scale_ceil bound_h img_h img_w = Ok c
       ∧ wh.1 = Z.min max_w c
       ∧ scale_floor wh.1 img_w img_h = Ok wh.2.

End Image.

(** ** grid.py: axes, row capacity, content resolution and traversal *)

Module Grid.
Import Terminal Size Image.

Section Layout.

Context {bitmap filter : Type} `{!Pil bitmap filter}.
Context {T : Type} `{!SizeValue T}.
Context `{!Data} `{!Blessed} `{!Random}.

(** A [Column] or a [Row]. *)
Record Cell : Type := {
  size : T;
  align : string
}.

(** An entry of an axis: a cell, or a callable (known by its number) that
    makes the cell from the axis and the index. *)
Inductive AxisCell : Type :=
| Static (c : Cell)
| Generated (f : nat).

Record Axis : Type := {
  data : list AxisCell;
  wrap_around : bool
}.

(** What calling entry [f] with [(axis, index)] returns. *)
Class AxisCalls : Type := {
  call_cell : nat → Axis → Z → Cell
}.

Context `{!AxisCalls}.

(** [l[i]] for a Python list and an integer. *)
Definition list_getitem {A} (l : list A) (i : Z) : result A :=
  let n := Z.of_nat (length l) in
  let j := if i <? 0 then i + n else i in
  if (0 <=? j) && (j <? n) then
    match l !! Z.to_nat j with
    | Some x => Ok x
    | None => Raise IndexError
    end
  else Raise IndexError.

(** [a % b] *)
Definition py_mod (a b : Z) : result Z :=
  if b =? 0 then Raise ZeroDivisionError else Ok (a mod b).

(** [Axis.__getitem__] *)
Definition Axis_getitem (self : Axis) (index : Z) : result Cell :=
  item ← match list_getitem (data self) index with
         | Raise IndexError =>
             k ← (if wrap_around self
                  then py_mod index (Z.of_nat (length (data self)))
                  else Ok (-1));
             list_getitem (data self) k
         | other => other
         end;
  match item with
  | Generated f => Ok (call_cell f self index)
  | Static c => Ok c
  end.

Record Grid : Type := {
  cols : Axis;
  rows : Axis;
  max_cols : option Z;
  max_rows : option Z;
  force_even : bool;
  force_odd : bool;
  text_overflow : string;
  cut_placeholder : string;
  raise_errors : bool;
  print_errors : bool
}.

(** The [while True] loop of [cells_per_row]; [at_col] is the integer 0
    ([None]) until a size is added to it. *)
Fixpoint fit (fuel : nat) (self : Grid) (m : metrics) (index : Z)
  (at_col : option T) (count : Z) : result Z :=
  match fuel with
  | O => Hang
  | S fuel =>
      c ← Axis_getitem (cols self) index;
      let to_col := size c in
      let total := match at_col with
                   | None => int_add 0 to_col
                   | Some a => add a to_col
                   end in
      cw ← cell_px_width m;
      if gt total (sub_int (TermHSize m) cw) then Ok count
      else fit fuel self m (index + 1) (Some total) (count + 1)
  end.

(** The parity rules at the end of [cells_per_row]. *)
Definition parity (self : Grid) (can_fit : Z) : result Z :=
  if force_even self then
    q ← int_div_float can_fit two; f ← floor q; Ok (Z.max 2 (f * 2))
  else if force_odd self then
    Ok (Z.max 1 (if can_fit mod 2 =? 0 then can_fit - 1 else can_fit))
  else Ok (Z.max 1 can_fit).

(** [cells_per_row]: the raw count [can_fit], then the parity rules. *)
Definition can_fit (fuel : nat) (self : Grid) (m : metrics) : result Z :=
  if truthy (max_cols self) then Ok (int_or (max_cols self) 0)
  else fit fuel self m 0 None 0.

Definition cells_per_row (fuel : nat) (self : Grid) (m : metrics)
  : result Z :=
  n ← can_fit fuel self m; parity self n.

(** *** Content resolution *)

(** What a grid is asked to show, and what it resolves to. *)
Inductive Content : Type :=
| CNone
| CCallable (f : nat)
| CImage (img : nat)
| CText (s : string).

Inductive Returned : Type :=
| RImage (img : nat)
| RText (s : string).

(** What [ansiwrap.wrap] and [ansiwrap.shorten] hand back for one line: a
    string, or a list of lines. *)
Inductive wrapped : Type :=
| WStr (s : string)
| WList (l : list string).

(** The callable contents and the text library: what content [f] returns
    when it is called with the grid, [ansilen] on a string and on a list,
    the function of [ansiwrap] named by [text_overflow] applied to a line,
    a width and a placeholder, and the text of an exception. *)
Class Text : Type := {
  call_content : nat → Grid → result Content;
  ansilen : string → Z;
  ansilen_lines : list string → result Z;
  ansiwrap : string → string → Z → string → result wrapped;
  describe : exn → string
}.

Context `{!Text}.

Abbreviation M := (Image.M bitmap filter).

Definition raise {A} (e : exn) : M A := lift (Raise e).

(** [print(s)] *)
Definition print_line (s : string) : M unit :=
  on_term (fun t => (Ok tt, print (s +:+ String "010" EmptyString) t)).

(** [_get_resized_image]: an exception of the [try] body is raised again,
    or printed, or dropped; in the last two cases the function ends without
    a [return], that is with [None]. *)
Definition _get_resized_image (fuel : nat) (self : Grid) (cell : nat)
  (col row : Z) : M (option nat) :=
  try_except
    (c ← lift (Axis_getitem (cols self) col);
     r ← lift (Axis_getitem (rows self) row);
     img ← resize fuel cell 1 1
             (Some (px (size c))) (Some (px (size r))) false "lanczos";
     mret (Some img))
    (fun err =>
       if raise_errors self then raise err
       else
         _ ← (if print_errors self then print_line (red (describe err))
              else mret tt);
         mret None).

(** The world after the diagnostic of [_get_resized_image]. *)
Definition diagnosed (self : Grid) (e : exn) (w : world bitmap filter)
  : world bitmap filter :=
  if print_errors self then (print_line (red (describe e)) w).2 else w.

(** The text library leaves an empty line empty: the function it applies
    ends, and when it gives a string for the empty line, it is the empty
    string. *)
Definition blank_stays_blank : Prop :=
  ∀ mode width placeholder,
    ansiwrap mode EmptyString width placeholder ≠ Hang
    ∧ ∀ s, ansiwrap mode EmptyString width placeholder = Ok (WStr s) →
           s = EmptyString.

(** The list comprehension of [_get_text]. *)
Fixpoint wrap_lines (self : Grid) (col : Z) (lines : list string)
  : result (list wrapped) :=
  match lines with
  | [] => Ok []
  | line :: rest =>
      c ← Axis_getitem (cols self) col;
      l ← ansiwrap (text_overflow self) line (cells (size c))
            (cut_placeholder self);
      ls ← wrap_lines self col rest;
      Ok (l :: ls)
  end.

(** The items of a [str.join]: each has to be a string. *)
Fixpoint strings_of (l : list wrapped) : result (list string) :=
  match l with
  | [] => Ok []
  | WStr s :: rest => ss ← strings_of rest; Ok (s :: ss)
  | WList _ :: _ => Raise TypeError
  end.

Definition _get_text (self : Grid) (cell : string) (col row : Z)
  : result string :=
  _ ← py_assert
        (bool_decide (text_overflow self ∈ ["wrap"; "shorten"]%string));
  lines ← wrap_lines self col (split_nl cell);
  r ← Axis_getitem (rows self) row;
  ss ← strings_of (slice_to lines (cells (size r)));
  Ok (join (String "010" EmptyString) ss).

(** [_get_content]; [depth] is the number of nested calls the interpreter
    still allows. *)
Fixpoint _get_content (depth fuel : nat) (self : Grid) (cell : Content)
  (col row : Z) : M (Returned * T * T) :=
  match cell with
  | CNone => mret (RText EmptyString, HSize 0, VSize 0)
  | CCallable f =>
      match depth with
      | O => raise RecursionError
      | S depth =>
          c ← lift (call_content f self);
          _get_content depth fuel self c col row
      end
  | CImage cell =>
      img ← _get_resized_image fuel self cell col row;
      match img with
      | None => raise AttributeError
      | Some img =>
          i ← get_image img;
          mret (RImage img, width_of i, height_of i)
      end
  | CText cell =>
      text ← lift (_get_text self cell col row);
      longest ← lift (py_max ansilen (splitlines text));
      num_lines ← lift (ansilen_lines (splitlines text));
      mret (RText text, HSize_cells (ansilen longest),
            VSize_cells num_lines)
  end.

(** *** Rendering *)

Definition _get_align (cell : Cell) (child_size : T) : result T :=
  _ ← py_assert
        (bool_decide (align cell ∈ ["left"; "center"; "right"]%string));
  if decide (align cell = "left"%string) then Ok (zero_like (size cell))
  else if decide (align cell = "center"%string) then
    Ok (floor_size (sub (half (size cell)) (half child_size)))
  else Ok (floor_size (sub (size cell) child_size)).

Definition newlines (n : Z) : string :=
  str_repeat (String "010" EmptyString) n.

(** The [for line in content.splitlines()] loop of [_show_content]. *)
Fixpoint show_lines (self : Grid) (col : Z) (restore_x : string)
  (lines : list string) : M unit :=
  match lines with
  | [] => mret tt
  | line :: rest =>
      c ← lift (Axis_getitem (cols self) col);
      inner_x ← lift (_get_align c (HSize_cells (ansilen line)));
      _ ← print_esc [str_repeat " " (cells inner_x); line;
                     String "010" EmptyString; restore_x];
      show_lines self col restore_x rest
  end.

Definition _show_content (self : Grid) (content : Returned)
  (width height : T) (col row : Z) : M unit :=
  r ← lift (Axis_getitem (rows self) row);
  inner_y ← lift (_get_align r height);
  t ← the_term;
  let restore_x := move_x ((get_location t).2 - 1) in
  _ ← print_esc [newlines (cells inner_y); restore_x];
  _ ← match content with
      | RImage img =>
          c ← lift (Axis_getitem (cols self) col);
          inner_x ← lift (_get_align c width);
          _ ← show img (-1) inner_x (VSize 0) "left";
          mret tt
      | RText s => show_lines self col restore_x (splitlines s)
      end;
  r ← lift (Axis_getitem (rows self) row);
  print_esc [newlines (cells (size r) - cells height - cells inner_y)].

(** *** Traversal *)

(** One round of the [for] loop of [show]: [None] is the [break]. *)
Definition show_item (depth fuel : nat) (self : Grid) (content : Content)
  (at_ : Z * Z) : M (option (Z * Z)) :=
  let '(col, row) := at_ in
  t ← the_term;
  let restore_x := move_x ((get_location t).2 - 1) in
  resolved ← _get_content depth fuel self content col row;
  _ ← _show_content self resolved.1.1 resolved.1.2 resolved.2 col row;
  r ← lift (Axis_getitem (rows self) row);
  t ← the_term;
  _ ← print_esc [move_relative_y (- cells (size r)) t; restore_x];
  c ← lift (Axis_getitem (cols self) col);
  t ← the_term;
  _ ← print_esc [move_relative_x (cells (size c)) t];
  let col := col + 1 in
  t ← the_term;
  per_row ← lift (cells_per_row fuel self (screen t));
  if col >=? per_row then
    r ← lift (Axis_getitem (rows self) row);
    _ ← print_esc [newlines (cells (size r))];
    let row := row + 1 in
    if truthy (max_rows self) && (row >? int_or (max_rows self) 0)
    then mret None
    else mret (Some (0, row))
  else mret (Some (col, row)).

(** The [for] loop: the position it ends at, and whether it ended on the
    [break]. *)
Fixpoint show_loop (depth fuel : nat) (self : Grid)
  (contents : list Content) (at_ : Z * Z) : M (Z * Z * bool) :=
  match contents with
  | [] => mret (at_, false)
  | content :: rest =>
      next ← show_item depth fuel self content at_;
      match next with
      | Some at_ => show_loop depth fuel self rest at_
      | None => mret ((0, at_.2 + 1), true)
      end
  end.

(** [Grid.show] *)
Definition show_grid (depth fuel : nat) (self : Grid)
  (contents : list Content) : M unit :=
  ended ← show_loop depth fuel self contents (0, 0);
  r ← lift (Axis_getitem (rows self) ended.1.2);
  print_esc [newlines (cells (size r))].

End Layout.

Arguments Cell T : clear implicits.
Arguments AxisCell T : clear implicits.
Arguments Axis T : clear implicits.
Arguments Grid T : clear implicits.
Arguments AxisCalls T : clear implicits.
Arguments Text T : clear implicits.

End Grid.

(** ** The specification's wording

    Definitions that follow the words of the specification, to be compared
    with the code. *)

Module Claimed.
Import Grid.

(** The entry an index resolves to: looked up directly when in range
    (negative indices count from the end), else [index mod length] on a
    wrapping axis and the last entry otherwise. *)
Definition entry {T} (self : Axis T) (index : Z) : option (AxisCell T) :=
  let n := Z.of_nat (length (data self)) in
  if (- n <=? index) && (index <? n) then
    data self !! Z.to_nat (if index <? 0 then index + n else index)
  else if wrap_around self then data self !! Z.to_nat (index mod n)
  else last (data self).

(** The row capacity for a raw count [n]: the nearest even number not
    above [n] with minimum 2 under [force_even]; else the nearest odd
    number not above [n] with minimum 1 under [force_odd]; else
    [max(1, n)]. *)
Definition capacity {T} (self : Grid T) (n : Z) : Z :=
  if force_even self then Z.max 2 (n - n mod 2)
  else if force_odd self then Z.max 1 (if Z.even n then n - 1 else n)
  else Z.max 1 n.

(** [ceil(a * c / b)] on exact numbers, for a positive [b]. *)
Definition ceil_ratio (a b c : Z) : Z := - ((- (a * c)) / b).

(** The upscaled size as the specification words it: the axis with the
    larger ratio of minimum to current size is scaled to its minimum, the
    other follows the aspect ratio and does not exceed its maximum. *)
Definition upscaled (img_w img_h min_w min_h max_w max_h : Z) : Z * Z :=
  if min_h * img_w <=? min_w * img_h
  then (min_w, Z.min max_h (ceil_ratio min_w img_w img_h))
  else (Z.min max_w (ceil_ratio min_h img_h img_w), min_h).

End Claimed.

(** ** Stand-ins for the collaborators

    Simple instances of the bitmap library, the size values, the terminal
    and the text library, to run the code on concrete inputs. *)

Module Fixtures.
Import Terminal Size Image Grid.

(** A bitmap is its size; scaling gives a bitmap of the size asked for and
    refuses a side below zero; the filter is its name. *)
#[export] Instance pil : Pil (Z * Z) string := {|
  bitmap_size := fun b => b;
  pil_resize := fun b wh f =>
    if (wh.1 <? 0) || (wh.2 <? 0) then Raise ValueError else Ok wh;
  resample_filter := fun name => Ok name;
  save_png := fun b => Ok "/tmp/.pixcat-0"%string
|}.

(** A size is a number of pixels; a cell is 10 by 20 pixels. *)
#[export] Instance pixels : SizeValue Z := {|
  HSize := fun n => n;
  VSize := fun n => n;
  HSize_cells := fun n => n * 10;
  VSize_cells := fun n => n * 20;
  TermHSize := fun m => width m * 10;
  px := fun s => s;
  cells := fun s => s / 10;
  truth := fun s => negb (s =? 0);
  zero_like := fun _ => 0;
  add := Z.add;
  sub := Z.sub;
  half := fun s => s / 2;
  floor_size := fun s => s;
  gt := Z.gtb;
  int_add := Z.add;
  sub_int := Z.sub;
  int_sub := Z.sub;
  int_half_sub_half := fun n s => n / 2 - s / 2
|}.

#[export] Instance blessed : Blessed := {|
  move_x := fun n => "<x" +:+ str_of_int n +:+ ">";
  move := fun y x => "<" +:+ str_of_int y +:+ ";" +:+ str_of_int x +:+ ">";
  red := fun s => s;
  get_location := fun _ => (1, 1)
|}%string.

#[export] Instance counting : Random := {|
  randint := fun n => Z.of_nat n + 1
|}.

Definition screen80 : metrics :=
  {| width := 80; height := 24; px_size := Ok (800, 480) |}.

(** A world with the images of the given sizes, empty caches, and a
    terminal that will send [keys]. *)
Definition image_of (i : nat) (b : Z * Z) : Image (Z * Z) :=
  {| id := Z.of_nat i + 1000; origin := b; _pil_image := b;
     _resized_cache := ∅ |}.

Definition world_of (images : list (Z * Z)) (keys : list event)
  : world (Z * Z) string :=
  {| heap := imap image_of images;
     used_ids := ∅;
     draws := O;
     scaled := [];
     term := {| out := []; input := keys; alarm := 0; screen := screen80 |} |}.

Definition column (w : Z) : AxisCell Z :=
  Static {| size := w; align := "center" |}.

(** A grid of equal cells with the default policy on errors. *)
Definition grid_of (cell_w cell_h : Z) (max_cols max_rows : option Z)
  : Grid Z :=
  {| cols := {| data := [column cell_w]; wrap_around := false |};
     rows := {| data := [column cell_h]; wrap_around := false |};
     max_cols := max_cols;
     max_rows := max_rows;
     force_even := false;
     force_odd := false;
     text_overflow := "shorten";
     cut_placeholder := " ...";
     raise_errors := false;
     print_errors := true |}.

(** Callable entries return a cell that depends on the entry alone,
    callable contents return no content. *)
#[export] Instance axis_calls : AxisCalls Z := {|
  call_cell := fun f a i =>
    {| size := 10 * (Z.of_nat f + 1); align := "left" |}
|}.

(** [wrap] gives the list of lines (none for an empty line), [shorten] a
    string cut to the width. *)
#[export] Instance text : Text Z := {|
  call_content := fun f g => Ok CNone;
  ansilen := fun s => Z.of_nat (String.length s);
  ansilen_lines := fun l => Ok (Z.of_nat (length l));
  ansiwrap := fun mode line width placeholder =>
    if decide (mode = "wrap"%string) then
      Ok (WList (if decide (line = EmptyString) then [] else [line]))
    else Ok (WStr (String.substring 0 (Z.to_nat width) line));
  describe := fun e => "error"%string
|}.

(** *** Inputs *)

(** A display request and the message it encodes to. *)
Definition display_controls : controls :=
  [("action", VStr "transmit+display"); ("id", VInt 5);
   ("offset_x", VInt 0)]%string.


(** The terminal answers [ENOENT] to the display request. *)
Definition refusing_tty : tty :=
  {| out := [];
     input := [Key "E"; Key "N"; Key "O"; Key "E"; Key "N"; Key "T";
               Key backslash; Key "x"]%string;
     alarm := 0;
     screen := screen80 |}.

(** A world with one image of 100 by 50 pixels. *)
Definition wide : world (Z * Z) string := world_of [(100, 50)] [].

(** A wrapping axis with a callable entry in the middle. *)
Definition three_columns : Axis Z :=
  {| data := [column 10; Generated 2; column 30]; wrap_around := true |}.

(** A grid with both parities forced and [max_cols] set. *)
Definition even_grid (n : Z) : Grid Z :=
  {| cols := {| data := [column 100]; wrap_around := false |};
     rows := {| data := [column 100]; wrap_around := false |};
     max_cols := Some n;
     max_rows := None;
     force_even := true;
     force_odd := true;
     text_overflow := "wrap";
     cut_placeholder := " ...";
     raise_errors := false;
     print_errors := true |}.

End Fixtures.

(** * Notions of the further properties *)

Module Notions.
Import Terminal Size Image.


(** The controls [detect_support] sends. *)
Definition probe : controls :=
  [("action", VStr "query"); ("id", VInt 1)]%string.

Section Formatting.

Context `{!Data}.

(** Every integer [get_code] formats for the controls [c] has at most 4300
    digits: [str] converts those on every version of Python (3.11 and
    later raise [ValueError] on longer ones). *)
Definition formats (c : controls) : Prop :=
  ∀ x real,
    default (VInt 0) (dict_get c "offset_x"%string) = VInt x →
    real_keys (dict_set c "offset_x"%string (VInt (x + 1))) [] = Ok real →
    ∀ key n, (key, VInt n) ∈ real → Z.abs n < 10 ^ 4300.

End Formatting.

Section Heap.

Context {bitmap filter : Type} `{!Pil bitmap filter}.

(** Every cache entry names an object of the heap whose bitmap has the
    size it is entered under. *)
Definition cache_exact (w : world bitmap filter) : Prop :=
  ∀ s img wh r,
    heap w !! s = Some img →
    _resized_cache img !! wh = Some r →
    ∃ img', heap w !! r = Some img' ∧ bitmap_size (_pil_image img') = wh.

(** The ids of the objects are pairwise distinct and all in the set of
    used ids. *)
Definition ids_registered (w : world bitmap filter) : Prop :=
  NoDup (id <$> heap w) ∧ ∀ img, img ∈ heap w → id img ∈ used_ids w.

(** Scaling gives a bitmap of the size asked for. *)
Definition scales_exactly : Prop :=
  ∀ (b : bitmap) wh (f : filter) b',
    pil_resize b wh f = Ok b' → bitmap_size b' = wh.

End Heap.

Section Display.

Context {bitmap filter : Type} `{!Pil bitmap filter}.
Context {T : Type} `{!SizeValue T}.

(** The controls [show] sends for an image aligned to the left. *)
Definition display_request (z : Z) (img : Image bitmap) : controls :=
  [("offset_x", VInt (px (HSize 0)));
   ("offset_y", VInt (px (VSize 0)));
   ("crop_w", VInt (px (HSize 0)));
   ("crop_h", VInt (px (VSize 0)));
   ("z_index", VInt z);
   ("action", VStr "transmit+display");
   ("medium", VStr "tempfile");
   ("format", VStr "png");
   ("id", VInt (id img))]%string.

End Display.

Section Cells.

Import Grid.

Context {T : Type} `{!AxisCalls T}.

(** The cell an entry of an axis stands for at an index. *)
Definition cell_of (self : Axis T) (index : Z) (item : AxisCell T) : Cell T :=
  match item with
  | Static c => c
  | Generated f => call_cell f self index
  end.

(** Where one round of the loop of [show] leaves the position when a row
    holds [p] cells: [None] is the [break]. *)
Definition advance (g : Grid T) (p : Z) (at_ : Z * Z) : option (Z * Z) :=
  if at_.1 + 1 >=? p then
    if truthy (max_rows g) && (at_.2 + 1 >? int_or (max_rows g) 0) then None
    else Some (0, at_.2 + 1)
  else Some (at_.1 + 1, at_.2).

End Cells.

End Notions.

(** * Inputs of the further runs *)

Module Inputs.
Import Terminal Size Image Grid Fixtures Notions.

(** A terminal that sends one character and then nothing until the alarm
    goes off. *)
Definition silent_tty : tty :=
  {| out := [];
     input := [Key "E"; Deadline; Key "x"]%string;
     alarm := 0;
     screen := screen80 |}.

(** The message of the probe of [detect_support]. *)
Definition probe_code : string :=
  (kitty_esc +:+ "_Ga=q,i=1,X=1;" +:+ kitty_esc +:+ backslash)%string.

(** A world with one image of 100 by 50 pixels whose id is registered. *)
Definition registered : world (Z * Z) string :=
  {| heap := [image_of 0 (100, 50)];
     used_ids := {[1000]};
     draws := O;
     scaled := [];
     term := {| out := []; input := []; alarm := 0; screen := screen80 |} |}.

(** Two axes without entries. *)
Definition no_columns : Axis Z := {| data := []; wrap_around := false |}.

Definition no_columns_wrapping : Axis Z :=
  {| data := []; wrap_around := true |}.

(** A grid with the odd parity alone forced and [max_cols] set. *)
Definition odd_grid (n : Z) : Grid Z :=
  {| cols := {| data := [column 100]; wrap_around := false |};
     rows := {| data := [column 100]; wrap_around := false |};
     max_cols := Some n;
     max_rows := None;
     force_even := false;
     force_odd := true;
     text_overflow := "wrap";
     cut_placeholder := " ...";
     raise_errors := false;
     print_errors := true |}.

(** Three lines of one letter. *)
Definition three_lines : string :=
  String "a" (String "010" (String "b" (String "010" (String "c"
    EmptyString)))).

Definition two_lines : string :=
  String "a" (String "010" (String "b" EmptyString)).

(** A world with one image of 100 by 50 pixels and a terminal that
    answers [ENOENT], and the message [show] sends for that image. *)
Definition refusing_world : world (Z * Z) string :=
  world_of [(100, 50)] (input refusing_tty).

Definition refused_code : string :=
  (kitty_esc +:+ "_GX=1,Y=0,w=0,h=0,z=-1,a=T,t=t,f=100,i=1000;"
   +:+ "L3RtcC8ucGl4Y2F0LTA=" +:+ kitty_esc +:+ backslash)%string.

End Inputs.

(** * Properties *)

Import Terminal Size Image.

(** ** Floats: halving an integer *)

Section FloatFacts.

Lemma digits2_pos_iter (p k : positive) :
  digits2_pos (Pos.iter xO p k) = (digits2_pos p + k)%positive.
Proof.
  induction k using Pos.peano_ind.
  - simpl. lia.
  - rewrite Pos.iter_succ. simpl. rewrite IHk. lia.
Qed.

Lemma Zpos_iter_xO (p k : positive) :
  Zpos (Pos.iter xO p k) = Zpos p * 2 ^ Zpos k.
Proof.
  induction k using Pos.peano_ind.
  - simpl. lia.
  - rewrite Pos.iter_succ, Pos2Z.inj_xO, IHk, Pos2Z.inj_succ, Z.pow_succ_r
      by lia.
    lia.
Qed.

Lemma digits2_pos_bounds (p : positive) :
  2 ^ (Zpos (digits2_pos p) - 1) <= Zpos p < 2 ^ Zpos (digits2_pos p).
Proof.
  induction p as [p IH|p IH|]; simpl digits2_pos.
  - rewrite Pos2Z.inj_succ.
    replace (Z.succ (Z.pos (digits2_pos p)) - 1)
      with (Z.succ (Z.pos (digits2_pos p) - 1)) by lia.
    rewrite !Z.pow_succ_r by lia. lia.
  - rewrite Pos2Z.inj_succ.
    replace (Z.succ (Z.pos (digits2_pos p)) - 1)
      with (Z.succ (Z.pos (digits2_pos p) - 1)) by lia.
    rewrite !Z.pow_succ_r by lia. lia.
  - simpl. lia.
Qed.

(** Rounding leaves a 53-bit mantissa alone. *)
Lemma round_aux_53 (s : bool) (m : positive) (e : Z) :
  Zpos (digits2_pos m) = 53 → -1074 <= e <= 971 →
  binary_round_aux prec emax s (Zpos m) e loc_Exact = S754_finite s m e.
Proof.
  intros Hd He. unfold binary_round_aux, shr_fexp, Zdigits2.
  rewrite Hd.
  replace (fexp prec emax (53 + e) - e) with 0
    by (unfold fexp, emin, prec, emax; lia).
  cbn [shr shr_record_of_loc shr_m loc_of_shr_record round_nearest_even].
  rewrite Hd.
  replace (fexp prec emax (53 + e) - e) with 0
    by (unfold fexp, emin, prec, emax; lia).
  cbn [shr shr_record_of_loc shr_m].
  replace (e <=? emax - prec) with true; [done|].
  symmetry. apply Z.leb_le. unfold emax, prec. lia.
Qed.

(** Rounding drops the last bit of a 54-bit mantissa when it is 0. *)
Lemma round_aux_54 (s : bool) (m : positive) (e : Z) :
  Zpos (digits2_pos m) = 53 → -1075 <= e <= 970 →
  binary_round_aux prec emax s (Zpos m~0) e loc_Exact
  = S754_finite s m (e + 1).
Proof.
  intros Hd He. unfold binary_round_aux, shr_fexp.
  cbn [Zdigits2 digits2_pos]. rewrite Pos2Z.inj_succ, Hd.
  replace (fexp prec emax (Z.succ 53 + e) - e) with 1
    by (unfold fexp, emin, prec, emax; lia).
  cbn [shr shr_record_of_loc SpecFloat.iter_pos shr_1 orb shr_m
         loc_of_shr_record round_nearest_even Zdigits2].
  rewrite Hd.
  replace (fexp prec emax (53 + (e + 1)) - (e + 1)) with 0
    by (unfold fexp, emin, prec, emax; lia).
  cbn [shr shr_record_of_loc shr_m].
  replace (e + 1 <=? emax - prec) with true; [done|].
  symmetry. apply Z.leb_le. unfold emax, prec. lia.
Qed.

(** An integer below [2 ^ 53] converts exactly. *)
Lemma float_of_pos (p : positive) :
  Zpos p < 2 ^ 53 →
  ∃ m e, float_of_int (Zpos p) = Ok (S754_finite false m e)
         ∧ Zpos (digits2_pos m) = 53 ∧ -52 <= e <= 0
         ∧ Zpos m = Zpos p * 2 ^ (- e).
Proof.
  intros Hp.
  pose proof (digits2_pos_bounds p) as [Hlo Hhi].
  assert (Hd : Zpos (digits2_pos p) <= 53).
  { destruct (Z_le_gt_dec (Zpos (digits2_pos p)) 53) as [|Hgt]; [done|].
    assert (2 ^ 53 <= 2 ^ (Zpos (digits2_pos p) - 1))
      by (apply Z.pow_le_mono_r; lia).
    lia. }
  unfold float_of_int, binary_normalize, binary_round, shl_align.
  replace (fexp prec emax (Zpos (digits2_pos p) + 0) - 0)
    with (Zpos (digits2_pos p) - 53)
    by (unfold fexp, emin, prec, emax; lia).
  destruct (Zpos (digits2_pos p) - 53) as [|k|k] eqn:Hk; [|lia|].
  - exists p, 0. rewrite round_aux_53 by lia.
    repeat split; try lia.
  - exists (Pos.iter xO p k), (fexp prec emax (Zpos (digits2_pos p) + 0)).
    assert (He : fexp prec emax (Zpos (digits2_pos p) + 0) = Zneg k)
      by (unfold fexp, emin, prec, emax; lia).
    rewrite He.
    assert (Hdk : Zpos (digits2_pos (Pos.iter xO p k)) = 53)
      by (rewrite digits2_pos_iter; lia).
    rewrite round_aux_53 by lia.
    repeat split; try lia.
    rewrite Zpos_iter_xO. reflexivity.
Qed.

(** Dividing a normal float by [2.0] lowers its exponent. *)
Lemma div_by_two (m : positive) (e : Z) :
  Zpos (digits2_pos m) = 53 → -1072 <= e <= 971 →
  SFdiv prec emax (S754_finite false m e) two = S754_finite false m (e - 1).
Proof.
  intros Hd He. unfold SFdiv, two, SFdiv_core_binary.
  cbn [Zdigits2 xorb]. rewrite Hd.
  change (Zpos (digits2_pos 4503599627370496)) with 53.
  replace (Z.min (fexp prec emax (53 + e - (53 + -51))) (e - -51))
    with (e - 2) by (unfold fexp, emin, prec, emax; lia).
  replace (e - -51 - (e - 2)) with 53 by lia.
  rewrite Z.shiftl_mul_pow2 by lia.
  replace (Zpos m * 2 ^ 53) with ((2 * Zpos m) * 4503599627370496) by lia.
  pose proof (Z.div_eucl_eq (2 * Zpos m * 4503599627370496)
                4503599627370496) as Heq.
  pose proof (Z.mod_pos_bound (2 * Zpos m * 4503599627370496)
                4503599627370496) as Hb.
  unfold Z.modulo in Hb.
  destruct (Z.div_eucl (2 * Zpos m * 4503599627370496) 4503599627370496)
    as [q r].
  assert (r = 0 ∧ q = Zpos m~0) as [-> ->] by lia.
  cbn [new_location Z.even new_location_even Z.eqb].
  replace (e - 2) with ((e - 1) - 1) at 2 by lia.
  rewrite round_aux_54 by lia. f_equal. lia.
Qed.

(** [math.floor(n / 2.0)] is [n // 2] for an integer up to [2 ^ 53]. *)
Lemma floor_half (n : Z) :
  0 <= n <= 2 ^ 53 →
  (q ← int_div_float n two; floor q) = Ok (n / 2).
Proof.
  intros Hn.
  destruct (Z.eq_dec n (2 ^ 53)) as [->|Hne]; [reflexivity|].
  destruct n as [|p|p]; [reflexivity| |lia].
  destruct (float_of_pos p) as (m & e & Hf & Hd & He & Hm); [lia|].
  unfold int_div_float. rewrite Hf. cbn [mbind result_bind two].
  change (S754_finite false 4503599627370496 (-51)) with two.
  rewrite div_by_two by lia.
  cbn [mbind result_bind floor].
  replace (0 <=? e - 1) with false by (symmetry; apply Z.leb_gt; lia).
  f_equal. rewrite Hm.
  replace (- (e - 1)) with (- e + 1) by lia.
  rewrite Z.pow_add_r, Z.pow_1_r by lia.
  rewrite (Z.mul_comm (2 ^ (- e)) 2).
  apply Z.div_mul_cancel_r; [lia|]. apply Z.pow_nonzero; lia.
Qed.

End FloatFacts.

(** ** terminal.py *)

Section DictFacts.

Context {K V : Type} `{EqDecision K}.



End DictFacts.

Section CodecFacts.

Context `{!Data}.




(** Setting a key leaves the entries of the other keys in place. *)
Lemma dict_set_others (d : controls) (k name : string) (v x : value) :
  name ≠ k → (name, v) ∈ dict_set d k x ↔ (name, v) ∈ d.
Proof.
  intros Hne. induction d as [|[k0 v0] d IH]; cbn [dict_set].
  - rewrite list_elem_of_singleton. split; [congruence|].
    intros Hin. by apply not_elem_of_nil in Hin.
  - destruct (decide (k0 = k)) as [->|Hk0]; rewrite !elem_of_cons.
    + split; (intros [[= ? ?]|Hin]; [congruence|by right]).
    + rewrite IH. done.
Qed.



Lemma append_empty (a b : string) :
  (a +:+ b)%string = EmptyString → a = EmptyString ∧ b = EmptyString.
Proof. destruct a; simpl; [done|discriminate]. Qed.

Lemma join_last_nonempty (l : list string) (x : string) :
  x ≠ EmptyString → join EmptyString (l ++ [x]) ≠ EmptyString.
Proof.
  intros Hx. induction l as [|y l IH]; [done|].
  change ((y :: l) ++ [x]) with (y :: (l ++ [x])).
  destruct (l ++ [x]) as [|z l'] eqn:Hl; [by destruct l|].
  cbn [join]. intros Hj.
  apply append_empty in Hj as [_ Hj]. apply append_empty in Hj as [_ Hj].
  by apply IH.
Qed.

(** The read loop stops at the first backslash and keeps what it read. *)
Lemma read_answer_until (pre : list string) (rest : list event)
  (chars : list string) (t : tty) :
  Forall (λ ch, ch ≠ backslash) pre →
  read_answer (map Key pre ++ Key backslash :: rest) chars t
  = (Ok (chars ++ pre ++ [backslash]), set_input rest t).
Proof.
  intros Hpre. revert chars.
  induction Hpre as [|ch pre Hch _ IH]; intros chars;
    cbn [map app read_answer].
  - by rewrite decide_True.
  - rewrite decide_False by done. rewrite IH. by rewrite <- app_assoc.
Qed.


End CodecFacts.

(** ** image.py *)

Section SizeFacts.

Lemma height_first_spec (img_w img_h bound_w max_h : Z) (wh : Z * Z) :
  height_first img_w img_h bound_w max_h = Ok wh →
  height_first_of img_w img_h bound_w max_h wh ∧ wh.2 <= max_h.
Proof.
  unfold height_first, height_first_of.
  destruct (scale_ceil bound_w img_w img_h) as [c| |]; try discriminate.
  cbn [mbind result_bind].
  destruct (scale_floor (Z.min max_h c) img_h img_w) as [w| |] eqn:Hw;
    try discriminate.
  cbn [mbind result_bind]. intros [= <-]. cbn [fst snd].
  split; [by exists c|lia].
Qed.

Lemma width_first_spec (img_w img_h bound_h max_w : Z) (wh : Z * Z) :
  width_first img_w img_h bound_h max_w = Ok wh →
  width_first_of img_w img_h bound_h max_w wh ∧ wh.1 <= max_w.
Proof.
  unfold width_first, width_first_of.
  destruct (scale_ceil bound_h img_h img_w) as [c| |]; try discriminate.
  cbn [mbind result_bind].
  destruct (scale_floor (Z.min max_w c) img_w img_h) as [h| |] eqn:Hh;
    try discriminate.
  cbn [mbind result_bind]. intros [= <-]. cbn [fst snd].
  split; [by exists c|lia].
Qed.

(** What [resize] does without [stretch] when it decides on a new
    size: in the upscale branch the width leads when [min_w >= min_h] and
    the height otherwise (the two minima are compared, not the two ratios),
    and in the downscale branch the width leads when [max_w >= max_h]; the
    side that does not lead is the ceiling of its current value scaled by
    the leading bound over the leading side, cut at its maximum in both
    branches, so that it never exceeds it; the leading side is the floor of
    what the aspect ratio gives back from it. *)
Theorem scaling_rule (m : metrics) (img_w img_h min_w min_h : Z)
  (max_w max_h : option Z) (lo_w lo_h hi_w hi_h : Z) (wh : Z * Z) :
  bounds m img_w img_h min_w min_h max_w max_h
  = Ok (lo_w, lo_h, hi_w, hi_h) →
  new_size m img_w img_h min_w min_h max_w max_h false = Ok (Some wh) →
  (upscales img_w img_h lo_w lo_h hi_w hi_h = true
   ∧ if lo_w >=? lo_h
     then height_first_of img_w img_h lo_w hi_h wh ∧ wh.2 <= hi_h
     else width_first_of img_w img_h lo_h hi_w wh ∧ wh.1 <= hi_w)
  ∨ (upscales img_w img_h lo_w lo_h hi_w hi_h = false
     ∧ downscales img_w img_h hi_w hi_h = true
     ∧ if hi_w >=? hi_h
       then height_first_of img_w img_h hi_w hi_h wh ∧ wh.2 <= hi_h
       else width_first_of img_w img_h hi_h hi_w wh ∧ wh.1 <= hi_w).
Proof.
  intros Hb. unfold new_size. rewrite Hb. cbn [mbind result_bind].
  destruct (upscales img_w img_h lo_w lo_h hi_w hi_h).
  - intros Hn. left. split; [done|]. destruct (lo_w >=? lo_h).
    + destruct (height_first img_w img_h lo_w hi_h) as [x| |] eqn:Hx;
        try discriminate.
      cbn [mbind result_bind] in Hn. injection Hn as <-.
      by apply height_first_spec.
    + destruct (width_first img_w img_h lo_h hi_w) as [x| |] eqn:Hx;
        try discriminate.
      cbn [mbind result_bind] in Hn. injection Hn as <-.
      by apply width_first_spec.
  - intros Hn. right. split; [done|].
    destruct (downscales img_w img_h hi_w hi_h); [|discriminate].
    split; [done|]. destruct (hi_w >=? hi_h).
    + destruct (height_first img_w img_h hi_w hi_h) as [x| |] eqn:Hx;
        try discriminate.
      cbn [mbind result_bind] in Hn. injection Hn as <-.
      by apply height_first_spec.
    + destruct (width_first img_w img_h hi_h hi_w) as [x| |] eqn:Hx;
        try discriminate.
      cbn [mbind result_bind] in Hn. injection Hn as <-.
      by apply width_first_spec.
Qed.

End SizeFacts.

Section ResizeFacts.

Context {bitmap filter : Type} `{!Pil bitmap filter} `{!Data} `{!Random}.

Implicit Types (w : world bitmap filter) (img : Image bitmap) (wh : Z * Z).

Lemma resize_unfold fuel self min_w min_h max_w max_h stretch resample w img :
  heap w !! self = Some img →
  resize fuel self min_w min_h max_w max_h stretch resample w =
    match target w self min_w min_h max_w max_h stretch with
    | Ok None => (Ok self, w)
    | Ok (Some wh) =>
        match _resized_cache img !! wh with
        | Some cached => (Ok cached, w)
        | None => make_resized fuel self img wh resample w
        end
    | Raise e => (Raise e, w)
    | Hang => (Hang, w)
    end.
Proof.
  intros Hself. unfold resize, get_image, decide_size.
  unfold mbind, M_bind. rewrite Hself.
  destruct (target w self min_w min_h max_w max_h stretch) as [[wh|]| |];
    try reflexivity.
  destruct (_resized_cache img !! wh); reflexivity.
Qed.

Lemma _get_id_world fuel w r w' :
  _get_id fuel w = (r, w') →
  heap w' = heap w ∧ scaled w' = scaled w ∧ term w' = term w.
Proof.
  unfold _get_id. destruct (MAX_ID <=? _).
  - intros [= <- <-]. done.
  - destruct (draw_unused _ _ _) as [[i n]|]; intros [= <- <-]; done.
Qed.

Lemma cache_grows_refl w : cache_grows w w.
Proof. intros s img Hs. exists img. auto. Qed.

Lemma cache_grows_trans w1 w2 w3 :
  cache_grows w1 w2 → cache_grows w2 w3 → cache_grows w1 w3.
Proof.
  intros H12 H23 s img Hs.
  destruct (H12 s img Hs) as (img2 & Hs2 & Hp2 & Hc2).
  destruct (H23 s img2 Hs2) as (img3 & Hs3 & Hp3 & Hc3).
  exists img3. split; [done|]. split; [congruence|]. auto.
Qed.

Lemma cache_grows_same_heap w w' : heap w' = heap w → cache_grows w w'.
Proof. intros Hh s img Hs. exists img. rewrite Hh. auto. Qed.

(** What the miss path leaves behind when it returns, and that whatever
    its outcome it only adds to the caches. *)
Lemma make_resized_result fuel self img wh resample w r w' :
  heap w !! self = Some img →
  _resized_cache img !! wh = None →
  make_resized fuel self img wh resample w = (r, w') →
  cache_grows w w'
  ∧ ∀ image, r = Ok image →
      ∃ f b i,
        resample_filter resample = Ok f
        ∧ pil_resize (_pil_image img) wh f = Ok b
        ∧ image = length (heap w)
        ∧ scaled w' = scaled w ++ [(self, wh, f)]
        ∧ heap w' !! image
          = Some {| id := i; origin := b; _pil_image := b;
                    _resized_cache := ∅ |}
        ∧ heap w' !! self
          = Some {| id := id img; origin := origin img;
                    _pil_image := _pil_image img;
                    _resized_cache := <[wh := image]> (_resized_cache img) |}.
Proof.
  intros Hself Hmiss. unfold make_resized, lift, scale, new_image, alloc.
  unfold mbind, M_bind, mret, M_ret.
  destruct (resample_filter resample) as [f| |] eqn:Hf;
    [|intros [= <- <-]; split; [apply cache_grows_refl|done]..].
  destruct (pil_resize (_pil_image img) wh f) as [b| |] eqn:Hb;
    [|intros [= <- <-]; split; [by apply cache_grows_same_heap|done]..].
  destruct (_get_id fuel _) as [[i| |] w1] eqn:Hid;
    apply _get_id_world in Hid as (Hh & Hs & Ht); cbn [heap scaled term] in *;
    [|intros [= <- <-]; split; [by apply cache_grows_same_heap|done]..].
  unfold cache_put. cbn [heap scaled term used_ids draws].
  assert (Hlt : (self < length (heap w1))%nat)
    by (rewrite Hh; by eapply lookup_lt_Some).
  rewrite lookup_app_l, Hh, Hself by done. rewrite Hh in Hlt.
  intros [= <- <-]. cbn [heap scaled]. split.
  - intros s img0 Hs0. cbn [heap].
    assert (Hs0lt : (s < length (heap w))%nat) by by eapply lookup_lt_Some.
    destruct (decide (s = self)) as [->|Hne].
    + rewrite list_lookup_insert_eq by (rewrite length_app; lia).
      eexists. split; [done|]. simplify_eq. split; [done|].
      intros wh' r' Hr'. cbn.
      destruct (decide (wh = wh')) as [<-|]; [congruence|].
      by rewrite lookup_insert_ne.
    + rewrite list_lookup_insert_ne by done.
      rewrite lookup_app_l by lia. exists img0. auto.
  - intros image [= <-]. exists f, b, i.
    split; [done|]. split; [done|]. split; [by rewrite ?Hh|].
    split; [by rewrite ?Hs|]. split.
    + rewrite list_lookup_insert_ne by lia.
      rewrite lookup_app_r by lia. by rewrite Nat.sub_diag.
    + by rewrite list_lookup_insert_eq by (rewrite length_app; lia).
Qed.

Lemma resize_grows fuel self min_w min_h max_w max_h stretch resample w r w' :
  resize fuel self min_w min_h max_w max_h stretch resample w = (r, w') →
  cache_grows w w'.
Proof.
  destruct (heap w !! self) as [img|] eqn:Hself.
  - rewrite (resize_unfold _ _ _ _ _ _ _ _ _ _ Hself).
    destruct (target w self min_w min_h max_w max_h stretch) as [[wh|]| |];
      try (intros [= <- <-]; apply cache_grows_refl).
    destruct (_resized_cache img !! wh) eqn:Hc;
      [intros [= <- <-]; apply cache_grows_refl|].
    intros Hm. by destruct (make_resized_result _ _ _ _ _ _ _ _ Hself Hc Hm).
  - unfold resize, get_image, mbind, M_bind. rewrite Hself.
    intros [= <- <-]. apply cache_grows_refl.
Qed.

Lemma resizes_grow w w' : resizes w w' → cache_grows w w'.
Proof.
  induction 1 as [|w1 w2 w3 ? ? ? ? ? ? ? ? ? Hstep _ IH];
    [apply cache_grows_refl|].
  eapply cache_grows_trans; [by eapply resize_grows|done].
Qed.

Lemma resize_hit fuel self min_w min_h max_w max_h stretch resample w img wh r :
  heap w !! self = Some img →
  target w self min_w min_h max_w max_h stretch = Ok (Some wh) →
  _resized_cache img !! wh = Some r →
  resize fuel self min_w min_h max_w max_h stretch resample w = (Ok r, w).
Proof.
  intros Hself Ht Hc. rewrite (resize_unfold _ _ _ _ _ _ _ _ _ _ Hself).
  by rewrite Ht, Hc.
Qed.

(** After a call that decided on [wh] and returned, the cache of the
    source holds the returned object under [wh]. *)
Lemma resize_leaves_cached fuel self min_w min_h max_w max_h stretch resample
  w img wh r w' :
  heap w !! self = Some img →
  target w self min_w min_h max_w max_h stretch = Ok (Some wh) →
  resize fuel self min_w min_h max_w max_h stretch resample w = (Ok r, w') →
  ∃ img', heap w' !! self = Some img' ∧ _resized_cache img' !! wh = Some r.
Proof.
  intros Hself Ht. rewrite (resize_unfold _ _ _ _ _ _ _ _ _ _ Hself), Ht.
  destruct (_resized_cache img !! wh) as [c|] eqn:Hc.
  - intros [= <- <-]. by exists img.
  - intros Hm.
    destruct (make_resized_result _ _ _ _ _ _ _ _ Hself Hc Hm) as [_ Hok].
    destruct (Hok r eq_refl) as (f & b & i & _ & _ & _ & _ & _ & Hs).
    eexists. split; [done|]. cbn. apply lookup_insert_eq.
Qed.

(** The miss path returns when the filter exists, the scaling works and
    the search for an unused id ends. *)
Lemma make_resized_returns fuel self img wh resample w f b :
  heap w !! self = Some img →
  resample_filter resample = Ok f →
  pil_resize (_pil_image img) wh f = Ok b →
  (MAX_ID <=? Z.of_nat (size (used_ids w))) = true
    ∨ is_Some (draw_unused fuel (used_ids w) (draws w)) →
  ∃ w', make_resized fuel self img wh resample w = (Ok (length (heap w)), w').
Proof.
  intros Hself Hf Hb Hid.
  unfold make_resized, lift, scale, new_image, alloc, _get_id, cache_put.
  unfold mbind, M_bind, mret, M_ret. rewrite Hf, Hb. cbn [used_ids draws heap].
  assert (Hlt : (self < length (heap w))%nat) by by eapply lookup_lt_Some.
  destruct (MAX_ID <=? Z.of_nat (size (used_ids w))) eqn:Hfull.
  - cbn [heap]. rewrite lookup_app_l, Hself by done. by eexists.
  - destruct Hid as [|[[i n] Hd]]; [done|]. rewrite Hd.
    cbn [heap]. rewrite lookup_app_l, Hself by done. by eexists.
Qed.

(** C8.  Let a call of [resize] on the image [self] decide on the size
    [wh].  On a miss (no entry for [wh] in the cache of [self]), when the
    named filter exists, the scaling works and an id is found, the call
    asks for exactly one scaling of [self] to [wh] with that filter,
    returns a new object holding the scaled bitmap and enters it in the
    cache of [self] under [wh].  And once such a call has returned an
    object, any later call on [self] that decides on [wh] again, after any
    number of calls of [resize] in between, returns the same object and
    leaves the world as it is: nothing is scaled a second time. *)
Theorem resize_cache fuel self min_w min_h max_w max_h stretch resample
  w img wh :
  heap w !! self = Some img →
  target w self min_w min_h max_w max_h stretch = Ok (Some wh) →
  (∀ f b,
      _resized_cache img !! wh = None →
      resample_filter resample = Ok f →
      pil_resize (_pil_image img) wh f = Ok b →
      (MAX_ID <=? Z.of_nat (size (used_ids w))) = true
        ∨ is_Some (draw_unused fuel (used_ids w) (draws w)) →
      ∃ w' i,
        resize fuel self min_w min_h max_w max_h stretch resample w
        = (Ok (length (heap w)), w')
        ∧ scaled w' = scaled w ++ [(self, wh, f)]
        ∧ heap w' !! length (heap w)
          = Some {| id := i; origin := b; _pil_image := b;
                    _resized_cache := ∅ |}
        ∧ heap w' !! self
          = Some {| id := id img; origin := origin img;
                    _pil_image := _pil_image img;
                    _resized_cache :=
                      <[wh := length (heap w)]> (_resized_cache img) |})
  ∧ (∀ r w' w'' fuel' min_w' min_h' max_w' max_h' stretch' resample',
      resize fuel self min_w min_h max_w max_h stretch resample w = (Ok r, w') →
      resizes w' w'' →
      target w'' self min_w' min_h' max_w' max_h' stretch' = Ok (Some wh) →
      resize fuel' self min_w' min_h' max_w' max_h' stretch' resample' w''
      = (Ok r, w'')).
Proof.
  intros Hself Ht. split.
  - intros f b Hc Hf Hb Hid.
    destruct (make_resized_returns fuel self img wh resample w f b)
      as [w' Hm]; try done.
    destruct (make_resized_result _ _ _ _ _ _ _ _ Hself Hc Hm) as [_ Hok].
    destruct (Hok _ eq_refl) as (f' & b' & i & Hf' & Hb' & _ & Hs & Hn & Hs').
    assert (f' = f) as -> by congruence. assert (b' = b) as -> by congruence.
    exists w', i. rewrite (resize_unfold _ _ _ _ _ _ _ _ _ _ Hself), Ht, Hc.
    done.
  - intros r w' w'' fuel' min_w' min_h' max_w' max_h' stretch' resample'
      Hfirst Hbetween Ht'.
    destruct (resize_leaves_cached _ _ _ _ _ _ _ _ _ _ _ _ _ Hself Ht Hfirst)
      as (img' & Hself' & Hc').
    destruct (resizes_grow _ _ Hbetween _ _ Hself')
      as (img'' & Hself'' & _ & Hc'').
    eapply resize_hit; eauto.
Qed.

(** C9.  When the bounds of a call are well formed (the conversions to
    pixels work and each minimum is at most its maximum) and the image is
    neither to be upscaled (below a minimum on some side and below the
    maximum on both) nor above a maximum on any side, [resize] returns the
    reference it was called on and changes nothing. *)
Theorem resize_in_bounds_returns_self fuel self min_w min_h max_w max_h
  stretch resample w img lo_w lo_h hi_w hi_h :
  heap w !! self = Some img →
  let img_w := (bitmap_size (_pil_image img)).1 in
  let img_h := (bitmap_size (_pil_image img)).2 in
  bounds (screen (term w)) img_w img_h min_w min_h max_w max_h
  = Ok (lo_w, lo_h, hi_w, hi_h) →
  ¬ ((img_w < lo_w ∨ img_h < lo_h) ∧ img_w < hi_w ∧ img_h < hi_h) →
  img_w <= hi_w → img_h <= hi_h →
  resize fuel self min_w min_h max_w max_h stretch resample w = (Ok self, w).
Proof.
  intros Hself img_w img_h Hb Hup Hw Hh.
  rewrite (resize_unfold _ _ _ _ _ _ _ _ _ _ Hself).
  unfold target. rewrite Hself. unfold new_size. fold img_w img_h.
  rewrite Hb. cbn [mbind result_bind].
  replace (upscales img_w img_h lo_w lo_h hi_w hi_h) with false.
  - replace (downscales img_w img_h hi_w hi_h) with false; [done|].
    symmetry. unfold downscales. rewrite !Z.gtb_ltb.
    apply orb_false_iff. split; apply Z.ltb_ge; lia.
  - symmetry. unfold upscales.
    destruct (Z.ltb_spec img_w lo_w), (Z.ltb_spec img_h lo_h),
      (Z.ltb_spec img_w hi_w), (Z.ltb_spec img_h hi_h); cbn; try done;
      exfalso; apply Hup; lia.
Qed.

End ResizeFacts.

(** ** grid.py *)

Section AxisFacts.

Import Grid.

Context {T : Type} `{!AxisCalls T}.

Lemma list_getitem_in_range {A} (l : list A) (i : Z) :
  - Z.of_nat (length l) <= i < Z.of_nat (length l) →
  ∃ x, l !! Z.to_nat (if i <? 0 then i + Z.of_nat (length l) else i) = Some x
       ∧ list_getitem l i = Ok x.
Proof.
  intros Hi. unfold list_getitem.
  set (j := if i <? 0 then i + Z.of_nat (length l) else i).
  assert (Hj : 0 <= j < Z.of_nat (length l))
    by (subst j; destruct (Z.ltb_spec i 0); lia).
  destruct (lookup_lt_is_Some_2 l (Z.to_nat j)) as [x Hx]; [lia|].
  exists x. split; [done|].
  replace ((0 <=? j) && (j <? Z.of_nat (length l))) with true
    by (symmetry; apply andb_true_iff; split;
        [apply Z.leb_le|apply Z.ltb_lt]; lia).
  by rewrite Hx.
Qed.

Lemma list_getitem_out_of_range {A} (l : list A) (i : Z) :
  ¬ (- Z.of_nat (length l) <= i < Z.of_nat (length l)) →
  list_getitem l i = Raise IndexError.
Proof.
  intros Hi. unfold list_getitem.
  set (j := if i <? 0 then i + Z.of_nat (length l) else i).
  destruct (Z.leb_spec 0 j), (Z.ltb_spec j (Z.of_nat (length l))); try done.
  exfalso. apply Hi. subst j. destruct (Z.ltb_spec i 0); lia.
Qed.

Lemma list_getitem_no_hang {A} (l : list A) (i : Z) :
  list_getitem l i ≠ Hang.
Proof.
  unfold list_getitem. destruct (_ && _); [|done].
  by destruct (l !! _).
Qed.

Lemma Axis_getitem_no_hang (a : Axis T) (i : Z) : Axis_getitem a i ≠ Hang.
Proof.
  unfold Axis_getitem.
  pose proof (list_getitem_no_hang (data a) i) as Hl.
  destruct (list_getitem (data a) i) as [x|e|]; [by destruct x| |done].
  assert (Hk2 : ∀ k, (item ← list_getitem (data a) k;
                      match item with
                      | Static c => Ok c
                      | Generated f => Ok (call_cell f a i)
                      end) ≠ Hang).
  { intros k. pose proof (list_getitem_no_hang (data a) k) as Hk.
    destruct (list_getitem (data a) k) as [x| |]; [by destruct x|done..]. }
  destruct e; try done.
  destruct (wrap_around a); [|apply Hk2].
  unfold py_mod. destruct (_ =? 0); [done|apply Hk2].
Qed.

(** C4.  On an axis with at least one entry, for every integer index,
    [Axis.__getitem__] returns a cell and raises nothing: the entry is the
    one at the index when it is in range (a negative index counting from
    the end), the one at [index mod length] when it is out of range on a
    wrapping axis, and the last one otherwise; a callable entry is called
    with the axis and the index as given, and what it returns is the
    cell. *)
Theorem axis_lookup_total (self : Axis T) (index : Z) :
  data self ≠ [] →
  ∃ item, Claimed.entry self index = Some item
          ∧ Axis_getitem self index
            = Ok (match item with
                  | Static c => c
                  | Generated f => call_cell f self index
                  end).
Proof.
  intros Hne. unfold Claimed.entry, Axis_getitem.
  set (n := Z.of_nat (length (data self))).
  assert (Hn : 0 < n) by (subst n; destruct (data self); [done|simpl; lia]).
  destruct (decide (- n <= index < n)) as [Hin|Hout].
  - destruct (list_getitem_in_range (data self) index Hin) as (x & Hx & Hg).
    exists x. rewrite Hg.
    replace ((- n <=? index) && (index <? n)) with true
      by (symmetry; apply andb_true_iff; split;
          [apply Z.leb_le|apply Z.ltb_lt]; lia).
    split; [done|]. by destruct x.
  - rewrite (list_getitem_out_of_range _ _ Hout).
    replace ((- n <=? index) && (index <? n)) with false
      by (symmetry; apply andb_false_iff;
          destruct (Z.leb_spec (- n) index), (Z.ltb_spec index n); auto; lia).
    destruct (wrap_around self).
    + unfold py_mod. fold n.
      replace (n =? 0) with false by (symmetry; apply Z.eqb_neq; lia).
      cbn [mbind result_bind].
      pose proof (Z.mod_pos_bound index n Hn) as Hm.
      destruct (list_getitem_in_range (data self) (index mod n))
        as (x & Hx & Hg); [fold n; lia|].
      replace (index mod n <? 0) with false in Hx
        by (symmetry; apply Z.ltb_ge; lia).
      exists x. rewrite Hg. split; [done|]. by destruct x.
    + cbn [mbind result_bind].
      destruct (list_getitem_in_range (data self) (-1)) as (x & Hx & Hg);
        [fold n; lia|].
      exists x. rewrite Hg. split; [|by destruct x].
      rewrite last_lookup. rewrite <- Hx. f_equal. cbn. fold n. lia.
Qed.

End AxisFacts.

Section CapacityFacts.

Import Grid.

Context {T : Type} `{!SizeValue T} `{!AxisCalls T}.

Lemma parity_small (g : Grid T) (n : Z) :
  0 <= n <= 2 ^ 53 → parity g n = Ok (Claimed.capacity g n).
Proof.
  intros Hn. unfold parity, Claimed.capacity.
  destruct (force_even g).
  - pose proof (floor_half n Hn) as Hf.
    destruct (int_div_float n two) as [q| |]; try discriminate.
    cbn [mbind result_bind] in *. rewrite Hf. cbn [mbind result_bind].
    do 2 f_equal. rewrite (Z.div_mod n 2) at 2 by lia. lia.
  - destruct (force_odd g); [|done].
    rewrite Zeven_mod. done.
Qed.

Lemma even_below (n : Z) :
  2 <= Z.max 2 (n - n mod 2)
  ∧ Z.even (Z.max 2 (n - n mod 2)) = true
  ∧ (2 <= n → Z.max 2 (n - n mod 2) <= n < Z.max 2 (n - n mod 2) + 2)
  ∧ (n = 3 → Z.max 2 (n - n mod 2) = 2).
Proof.
  pose proof (Z.mod_pos_bound n 2 eq_refl) as Hmod.
  pose proof (Z.div_mod n 2) as Hdiv.
  split; [lia|]. split; [|split; [lia|intros ->; done]].
  destruct (Z.max_spec 2 (n - n mod 2)) as [[_ ->]|[_ ->]]; [|done].
  replace (n - n mod 2) with (2 * (n / 2)) by lia.
  rewrite Z.even_mul. done.
Qed.

Lemma odd_below (n : Z) :
  Z.odd (Z.max 1 (if Z.even n then n - 1 else n)) = true
  ∧ (1 <= n →
     Z.max 1 (if Z.even n then n - 1 else n) <= n
     < Z.max 1 (if Z.even n then n - 1 else n) + 2).
Proof.
  destruct (Z.even n) eqn:He.
  - split; [|lia].
    destruct (Z.max_spec 1 (n - 1)) as [[_ ->]|[_ ->]]; [|done].
    rewrite Z.odd_sub, <- Z.negb_even, He. done.
  - split; [|lia].
    destruct (Z.max_spec 1 n) as [[_ ->]|[_ ->]]; [|done].
    by rewrite <- Z.negb_even, He.
Qed.

(** The parity rules are exact up to [2 ^ 53]: for every raw count [n]
    from 0 to [2 ^ 53], [cells_per_row] is: under [force_even], the nearest even number not
    above [n], with minimum 2; else under [force_odd], the nearest odd
    number not above [n] ([n - 1] only when [n] is even), with minimum 1;
    else [max(1, n)].  [force_even] is looked at first.  The result is at
    least 1, at least 2 and even under [force_even], odd under [force_odd]
    alone, and 2 for [n = 3] under [force_even]. *)
Theorem cells_per_row_parity (fuel : nat) (g : Grid T) (m : metrics) (n : Z) :
  can_fit fuel g m = Ok n →
  0 <= n <= 2 ^ 53 →
  cells_per_row fuel g m = Ok (Claimed.capacity g n)
  ∧ 1 <= Claimed.capacity g n
  ∧ (force_even g = true →
     2 <= Claimed.capacity g n
     ∧ Z.even (Claimed.capacity g n) = true
     ∧ (2 <= n → Claimed.capacity g n <= n < Claimed.capacity g n + 2)
     ∧ (n = 3 → Claimed.capacity g n = 2))
  ∧ (force_even g = false → force_odd g = true →
     Z.odd (Claimed.capacity g n) = true
     ∧ (1 <= n → Claimed.capacity g n <= n < Claimed.capacity g n + 2))
  ∧ (force_even g = false → force_odd g = false →
     Claimed.capacity g n = Z.max 1 n).
Proof.
  intros Hfit Hn. unfold cells_per_row. rewrite Hfit.
  cbn [mbind result_bind]. split; [by apply parity_small|].
  destruct (even_below n) as (He1 & He2 & He3 & He4).
  destruct (odd_below n) as (Ho1 & Ho2).
  unfold Claimed.capacity.
  destruct (force_even g), (force_odd g); repeat split;
    try discriminate; try lia; try done; intros; try lia; auto.
Qed.

End CapacityFacts.

Section ContentFacts.

Import Grid.

Context {bitmap filter : Type} `{!Pil bitmap filter}.
Context {T : Type} `{!SizeValue T}.
Context `{!Data} `{!Blessed} `{!Random} `{!AxisCalls T} `{!Text T}.

Implicit Types (w : world bitmap filter) (g : Grid T).

(** When [resize] raises and the grid does not raise it again,
    [_get_resized_image] returns [None], and [_get_content] raises
    [AttributeError] on it. *)
Lemma swallowed_resize_error depth fuel g cell col row c r e w w' :
  raise_errors g = false →
  Axis_getitem (cols g) col = Ok c →
  Axis_getitem (rows g) row = Ok r →
  resize fuel cell 1 1 (Some (px (size c))) (Some (px (size r))) false
    "lanczos" w = (Raise e, w') →
  _get_resized_image fuel g cell col row w = (Ok None, diagnosed g e w')
  ∧ _get_content depth fuel g (CImage cell) col row w
    = (Raise AttributeError, diagnosed g e w').
Proof.
  intros Hraise Hc Hr Hresize.
  assert (Hget : _get_resized_image fuel g cell col row w
                 = (Ok None, diagnosed g e w')).
  { unfold _get_resized_image, try_except, lift, diagnosed.
    unfold mbind, M_bind, mret, M_ret. rewrite Hc, Hr, Hresize, Hraise.
    destruct (print_errors g); [|done].
    unfold print_line, on_term. done. }
  split; [done|]. destruct depth; cbn [_get_content];
    unfold mbind, M_bind; by rewrite Hget.
Qed.

(** An exception of the first item's resolution ends [show]. *)
Lemma show_grid_first_raises depth fuel g content rest e w w' :
  _get_content depth fuel g content 0 0 w = (Raise e, w') →
  show_grid depth fuel g (content :: rest) w = (Raise e, w').
Proof.
  intros Hc. unfold show_grid. cbn [show_loop]. unfold show_item, the_term.
  unfold mbind, M_bind. by rewrite Hc.
Qed.

Lemma get_text_blank g col row :
  blank_stays_blank →
  _get_text g EmptyString col row ≠ Hang
  ∧ ∀ text, _get_text g EmptyString col row = Ok text → text = EmptyString.
Proof.
  intros Hblank. unfold _get_text. cbn [split_nl wrap_lines].
  unfold py_assert. destruct (bool_decide _); cbn [mbind result_bind]; [|done].
  pose proof (Axis_getitem_no_hang (cols g) col) as Hc.
  destruct (Axis_getitem (cols g) col) as [c| |]; cbn [mbind result_bind];
    [|done..].
  destruct (Hblank (text_overflow g) (cells (size c)) (cut_placeholder g))
    as [Hh Hs].
  destruct (ansiwrap _ _ _ _) as [l| |]; cbn [mbind result_bind]; [|done..].
  pose proof (Axis_getitem_no_hang (rows g) row) as Hr.
  destruct (Axis_getitem (rows g) row) as [r| |]; cbn [mbind result_bind];
    [|done..].
  assert (Hslice : slice_to [l] (cells (size r)) = []
                   ∨ slice_to [l] (cells (size r)) = [l]).
  { unfold slice_to. destruct (0 <=? cells (size r)).
    - destruct (Z.to_nat (cells (size r))); cbn; auto.
      rewrite take_nil. auto.
    - destruct (Z.to_nat _); cbn; auto. rewrite take_nil. auto. }
  destruct Hslice as [-> | ->]; cbn [strings_of mbind result_bind join].
  - split; [done|]. by intros text [= <-].
  - destruct l as [s|]; cbn [mbind result_bind]; [|done].
    split; [done|]. intros text [= <-]. by apply Hs.
Qed.

Lemma get_content_blank depth fuel g col row w :
  blank_stays_blank →
  ∃ e, _get_content depth fuel g (CText EmptyString) col row w = (Raise e, w)
       ∧ (is_ok (_get_text g EmptyString col row) = true → e = ValueError).
Proof.
  intros Hblank. destruct (get_text_blank g col row Hblank) as [Hh Htext].
  assert (Hc : _get_content depth fuel g (CText EmptyString) col row w
          = match _get_text g EmptyString col row with
            | Ok _ => (Raise ValueError, w)
            | Raise e => (Raise e, w)
            | Hang => (Hang, w)
            end).
  { destruct depth; cbn [_get_content]; unfold lift, mbind, M_bind;
      (destruct (_get_text g EmptyString col row) as [text| |] eqn:Ht;
       [|done..]); by rewrite (Htext text eq_refl). }
  rewrite Hc. destruct (_get_text g EmptyString col row) as [text|e|];
    [by exists ValueError|by exists e|done].
Qed.

Lemma show_loop_app depth fuel g pre rest at_ at' w w' :
  show_loop depth fuel g pre at_ w = (Ok (at', false), w') →
  show_loop depth fuel g (pre ++ rest) at_ w
  = show_loop depth fuel g rest at' w'.
Proof.
  revert at_ w. induction pre as [|content pre IH]; intros at_ w.
  - intros [= <- <-]. done.
  - cbn [show_loop app]. unfold mbind, M_bind.
    destruct (show_item depth fuel g content at_ w) as [[[next|]| |] w1];
      try done. apply IH.
Qed.

(** C10, as amended.  With a text library that leaves an empty line
    empty, resolving the empty string as content never returns: it raises,
    and when [_get_text] returns (the empty text) the exception is the
    [ValueError] of [max] on the empty list of its lines.  [Grid.show]
    raises on a sequence with the empty string in it whenever its loop
    gets to that item, that is when the items before it were shown and the
    [max_rows] break did not end the loop. *)
Theorem empty_text_raises depth fuel g :
  blank_stays_blank →
  (∀ col row w,
      ∃ e, _get_content depth fuel g (CText EmptyString) col row w
           = (Raise e, w)
           ∧ (is_ok (_get_text g EmptyString col row) = true
              → e = ValueError))
  ∧ (∀ pre post at_ w w',
        show_loop depth fuel g pre (0, 0) w = (Ok (at_, false), w') →
        ∃ e, show_grid depth fuel g (pre ++ CText EmptyString :: post) w
             = (Raise e, w')).
Proof.
  intros Hblank. split.
  - intros col row w. by apply get_content_blank.
  - intros pre post [col row] w w' Hpre.
    destruct (get_content_blank depth fuel g col row w' Hblank) as (e & He & _).
    exists e. unfold show_grid. unfold mbind at 1. unfold M_bind at 1.
    rewrite (show_loop_app _ _ _ _ _ _ _ _ _ Hpre).
    cbn [show_loop]. unfold show_item, the_term, mbind, M_bind.
    by rewrite He.
Qed.

End ContentFacts.

(** ** The code on concrete inputs *)

Section Runs.

Import Grid Fixtures.

Example str_of_int_neg : str_of_int (-12) = "-12"%string.
Proof. reflexivity. Qed.

Example join_three : join "," ["a"; "b"; "c"]%string = "a,b,c"%string.
Proof. reflexivity. Qed.

Example b64_Man : b64encode "Man" = "TWFu"%string.
Proof. reflexivity. Qed.

Example b64_Ma : b64encode "Ma" = "TWE="%string.
Proof. reflexivity. Qed.

Example b64_M : b64encode "M" = "TQ=="%string.
Proof. reflexivity. Qed.

Example split_nl_empty : split_nl EmptyString = [EmptyString].
Proof. reflexivity. Qed.

Example splitlines_empty : splitlines EmptyString = [].
Proof. reflexivity. Qed.

Example splitlines_crlf :
  splitlines (String "a" (String "013" (String "010"
               (String "b" (String "010" EmptyString)))))
  = ["a"; "b"]%string.
Proof. reflexivity. Qed.

Example float_tenth_times_three :
  (x ← int_truediv 1 10; y ← float_mul_int x 3; ceil y) = Ok 1.
Proof. reflexivity. Qed.

Example get_code_no_offset :
  get_code EmptyString [("offset_y", VInt 7)]%string
  = Ok (kitty_esc +:+ "_GY=7,X=1;" +:+ kitty_esc +:+ backslash)%string.
Proof. reflexivity. Qed.

(** *** Terminal *)



(** *** Resizing *)

Example resize_100x50_to_50x25 :
  let r := resize 8 0 1 1 (Some 50) (Some 50) false "lanczos" wide in
  r.1 = Ok 1%nat
  ∧ _pil_image <$> heap r.2 !! 1%nat = Some (50, 25)
  ∧ scaled r.2 = [(0%nat, (50, 25), "lanczos"%string)].
Proof. vm_compute. done. Qed.

(** C1.  A 4x1 image resized with minimum (1, 1) and maximum (2, 2), not
    stretched: the height is computed first, as [ceil(0.5 * 1) = 1], and
    the width follows as [floor(1.0 * 4) = 4]; the image returned is 4
    pixels wide, above the maximum of 2. *)
Theorem resize_exceeds_max_width :
  let r := resize 8 0 1 1 (Some 2) (Some 2) false "lanczos"
             (world_of [(4, 1)] []) in
  r.1 = Ok 1%nat
  ∧ (bitmap_size ∘ _pil_image) <$> heap r.2 !! 1%nat = Some (4, 1)
  ∧ (4 <=? 2) = false.
Proof. vm_compute. done. Qed.

Lemma scaling_rule_witness :
  (upscales 100 50 1 1 50 50 = true
   ∧ if 1 >=? 1
     then height_first_of 100 50 1 50 (50, 25) ∧ (50, 25).2 <= 50
     else width_first_of 100 50 1 50 (50, 25) ∧ (50, 25).1 <= 50)
  ∨ (upscales 100 50 1 1 50 50 = false
     ∧ downscales 100 50 50 50 = true
     ∧ if 50 >=? 50
       then height_first_of 100 50 50 50 (50, 25) ∧ (50, 25).2 <= 50
       else width_first_of 100 50 50 50 (50, 25) ∧ (50, 25).1 <= 50).
Proof.
  apply (scaling_rule screen80 100 50 1 1 (Some 50) (Some 50) 1 1 50 50
           (50, 25)); reflexivity.
Defined.

(** C2.  A 4x1 image resized with minimum (8, 4) and maximum (100, 100),
    not stretched, takes the upscale branch.  The larger ratio is the
    height's (4 / 1 against 8 / 4): by the claim the height leads and
    becomes 4, and the width follows as 16.  The code compares the two
    minima, 8 with 4, computes the height first, as [ceil((8 / 4) * 1) = 2],
    cut at its maximum only, and the width from it, as
    [floor((2 / 1) * 4) = 8]: the image returned is 8x2, its height below
    the minimum of 4 that the comment beside the computation says it is
    raised to. *)
Theorem ratio_does_not_lead :
  let r := resize 8 0 8 4 (Some 100) (Some 100) false "lanczos"
             (world_of [(4, 1)] []) in
  upscales 4 1 8 4 100 100 = true
  ∧ new_size screen80 4 1 8 4 (Some 100) (Some 100) false = Ok (Some (8, 2))
  ∧ r.1 = Ok 1%nat
  ∧ (bitmap_size ∘ _pil_image) <$> heap r.2 !! 1%nat = Some (8, 2)
  ∧ (4 <=? 2) = false
  ∧ Claimed.upscaled 4 1 8 4 100 100 = (16, 4).
Proof. vm_compute. done. Qed.

Lemma resize_cache_witness :
  let first := resize 8 0 1 1 (Some 50) (Some 50) false "lanczos" wide in
  first.1 = Ok 1%nat
  ∧ resize 8 0 1 1 (Some 50) (Some 30) false "nearest" first.2
    = (Ok 1%nat, first.2).
Proof.
  intros first.
  assert (Hfirst : first.1 = Ok 1%nat) by (vm_compute; reflexivity).
  split; [exact Hfirst|].
  destruct (resize_cache 8 0 1 1 (Some 50) (Some 50) false "lanczos"
              wide (image_of 0 (100, 50)) (50, 25)) as [_ Hagain].
  - reflexivity.
  - vm_compute. reflexivity.
  - apply (Hagain 1%nat first.2 first.2 8%nat 1 1 (Some 50) (Some 30) false
             "nearest"%string).
    + rewrite <- Hfirst. apply surjective_pairing.
    + apply resizes_refl.
    + vm_compute. reflexivity.
Defined.

Lemma resize_in_bounds_returns_self_witness :
  resize 8 0 1 1 (Some 200) (Some 200) false "lanczos" wide
  = (Ok 0%nat, wide).
Proof.
  apply (resize_in_bounds_returns_self 8 0 1 1 (Some 200) (Some 200) false
           "lanczos" wide (image_of 0 (100, 50)) 1 1 200 200).
  - reflexivity.
  - reflexivity.
  - cbn. lia.
  - cbn. lia.
  - cbn. lia.
Defined.

(** *** The grid *)

Lemma axis_lookup_total_witness :
  ∃ item, Claimed.entry three_columns 7 = Some item
          ∧ Axis_getitem three_columns 7
            = Ok (match item with
                  | Static c => c
                  | Generated f => call_cell f three_columns 7
                  end).
Proof. apply (axis_lookup_total three_columns 7). discriminate. Defined.

Example axis_lookup_negative :
  Axis_getitem three_columns (-1) = Ok {| size := 30; align := "center" |}
  ∧ Axis_getitem three_columns (-5) = Ok {| size := 30; align := "left" |}
  ∧ Axis_getitem three_columns 6 = Ok {| size := 10; align := "center" |}.
Proof. vm_compute. done. Qed.

Lemma cells_per_row_parity_witness :
  cells_per_row 0 (even_grid 3) screen80
  = Ok (Claimed.capacity (even_grid 3) 3)
  ∧ 1 <= Claimed.capacity (even_grid 3) 3
  ∧ (force_even (even_grid 3) = true →
     2 <= Claimed.capacity (even_grid 3) 3
     ∧ Z.even (Claimed.capacity (even_grid 3) 3) = true
     ∧ (2 <= 3 → Claimed.capacity (even_grid 3) 3 <= 3
                 < Claimed.capacity (even_grid 3) 3 + 2)
     ∧ (3 = 3 → Claimed.capacity (even_grid 3) 3 = 2))
  ∧ (force_even (even_grid 3) = false → force_odd (even_grid 3) = true →
     Z.odd (Claimed.capacity (even_grid 3) 3) = true
     ∧ (1 <= 3 → Claimed.capacity (even_grid 3) 3 <= 3
                 < Claimed.capacity (even_grid 3) 3 + 2))
  ∧ (force_even (even_grid 3) = false → force_odd (even_grid 3) = false →
     Claimed.capacity (even_grid 3) 3 = Z.max 1 3).
Proof.
  apply (cells_per_row_parity 0 (even_grid 3) screen80 3).
  - reflexivity.
  - lia.
Defined.

(** C5.  [max_cols = 2 ^ 53 + 3] under [force_even]: the count is
    converted to the float [2 ^ 53 + 4] before it is halved, and
    [cells_per_row] is [2 ^ 53 + 4], above the count, where the nearest
    even number down, which the claim and the comment beside the
    computation name, is [2 ^ 53 + 2]; under [force_odd] alone, computed on
    integers, the same count gives [2 ^ 53 + 3], as claimed. *)
Theorem capacity_above_count :
  cells_per_row 0 (even_grid 9007199254740995) screen80
  = Ok 9007199254740996
  ∧ (9007199254740996 <=? 9007199254740995) = false
  ∧ Claimed.capacity (even_grid 9007199254740995) 9007199254740995
    = 9007199254740994
  ∧ cells_per_row 0 (Inputs.odd_grid 9007199254740995) screen80
    = Ok (Claimed.capacity (Inputs.odd_grid 9007199254740995)
            9007199254740995)
  ∧ Claimed.capacity (Inputs.odd_grid 9007199254740995) 9007199254740995
    = 9007199254740995.
Proof. vm_compute. done. Qed.

(** C3.  A grid with [raise_errors] off and [print_errors] on is shown an
    image of size 0x0: [resize] raises [ZeroDivisionError], the diagnostic
    is printed, and [show] ends there with [AttributeError], the image not
    being treated as empty content. *)
Theorem failed_resize_aborts_show :
  let g := grid_of 256 256 None None in
  let w := world_of [(0, 0)] [] in
  raise_errors g = false
  ∧ (resize 8 0 1 1 (Some 256) (Some 256) false "lanczos" w).1
    = Raise ZeroDivisionError
  ∧ (_get_content 8 8 g (CImage 0) 0 0 w).1 = Raise AttributeError
  ∧ (show_grid 8 8 g [CImage 0; CNone] w).1 = Raise AttributeError
  ∧ out (term (show_grid 8 8 g [CImage 0; CNone] w).2)
    = [("error" +:+ String "010" EmptyString)%string].
Proof. vm_compute. done. Qed.

Lemma fixture_blank_stays_blank : @blank_stays_blank Z text.
Proof.
  intros mode width placeholder. cbn.
  destruct (decide (mode = "wrap"%string)); split; try done.
  intros s [= <-]. by destruct (Z.to_nat width).
Qed.

Lemma empty_text_raises_witness :
  (∀ col row (w : world (Z * Z) string),
      ∃ e, _get_content 8 8 (grid_of 100 100 None None) (CText EmptyString)
             col row w = (Raise e, w)
           ∧ (is_ok (_get_text (grid_of 100 100 None None) EmptyString
                       col row) = true
              → e = ValueError))
  ∧ (∀ pre post at_ (w w' : world (Z * Z) string),
        show_loop 8 8 (grid_of 100 100 None None) pre (0, 0) w
        = (Ok (at_, false), w') →
        ∃ e, show_grid 8 8 (grid_of 100 100 None None)
               (pre ++ CText EmptyString :: post) w
             = (Raise e, w')).
Proof.
  apply (empty_text_raises 8 8 (grid_of 100 100 None None)).
  apply fixture_blank_stays_blank.
Defined.

Example empty_text_first :
  (show_grid 8 8 (grid_of 100 100 None None) [CText EmptyString]
     (world_of [] [])).1
  = Raise ValueError.
Proof. vm_compute. done. Qed.

(** C10, the claim at a grid of one column and at most one row shown
    [None], [None] and the empty string: the loop breaks after the second
    item, the empty string is never resolved, and [show] returns. *)
Lemma show_ends_before_empty_text :
  (show_grid 8 8 (grid_of 100 100 (Some 1) (Some 1))
     [CNone; CNone; CText EmptyString] (world_of [] [])).1
  = Ok tt.
Proof. vm_compute. done. Qed.

(** Two columns of 10 cells, rows of 5 cells, [max_cols = 2], three
    texts: the third starts the second row. *)
Example third_item_starts_a_row :
  (show_loop 8 8 (grid_of 100 100 (Some 2) None)
     [CText "a"; CText "b"] (0, 0) (world_of [] [])).1
  = Ok ((0, 1), false)
  ∧ (show_loop 8 8 (grid_of 100 100 (Some 2) None)
       [CText "a"; CText "b"; CText "c"] (0, 0) (world_of [] [])).1
    = Ok ((1, 1), false).
Proof. vm_compute. done. Qed.

End Runs.

(** * Further properties *)

Import Notions.

(** ** The terminal *)

Section TerminalMore.

Context `{!Data}.


(** With an alarm pending, the loop ends at the deadline when no backslash
    came before it. *)
Lemma read_answer_deadline (pre : list string) (rest : list event)
  (chars : list string) (t : tty) :
  alarm t ≠ 0%N →
  Forall (λ ch, ch ≠ backslash) pre →
  read_answer (map Key pre ++ Deadline :: rest) chars t
  = (Raise KittyAnswerTimeout, set_alarm 0 (set_input rest t)).
Proof.
  intros Halarm Hpre. revert chars.
  induction Hpre as [|ch pre Hch _ IH]; intros chars;
    cbn [map app read_answer].
  - by rewrite (proj2 (N.eqb_neq _ _) Halarm).
  - rewrite decide_False by done. apply IH.
Qed.





(** X4.  [detect_support]: when the terminal answers the probe, the
    result is [True] exactly when the answer does not contain [;OK] (the
    [KittyAnswerError] of [run_code] is what signals support); when the
    alarm goes off first, the result is [False].  No alarm is left pending
    either way. *)
Theorem detect_support_outcome (t : tty) (code : string)
  (pre : list string) (rest : list event) :
  get_code EmptyString probe = Ok code →
  VStr "query" ∈ ACTIONS_WITH_ANSWER →
  Forall (λ ch, ch ≠ backslash) pre →
  (input t = map Key pre ++ Key backslash :: rest →
   (detect_support t).1
   = Ok (negb (contains ";OK" (join EmptyString (pre ++ [backslash]))))
   ∧ alarm (detect_support t).2 = 0%N)
  ∧ (input t = map Key pre ++ Deadline :: rest →
     (detect_support t).1 = Ok false
     ∧ alarm (detect_support t).2 = 0%N).
Proof.
  intros Hcode Hact Hpre. unfold detect_support, run_code. fold probe.
  rewrite Hcode.
  change (default (VStr "transmit") (dict_get probe "action"%string))
    with (VStr "query").
  rewrite bool_decide_true by done. cbn [input set_alarm print]. split.
  - intros ->. rewrite read_answer_until by done. cbn [app].
    rewrite (bool_decide_false (join EmptyString (pre ++ [backslash]) = EmptyString))
      by (apply join_last_nonempty; discriminate).
    cbn [negb andb].
    destruct (contains ";OK" (join EmptyString (pre ++ [backslash]))); done.
  - intros ->. rewrite read_answer_deadline by done. done.
Qed.

Lemma real_pair_outcome (kv : string * value) :
  (∃ p, real_pair kv = Ok p) ∨ real_pair kv = Raise KeyError.
Proof.
  unfold real_pair.
  destruct (dict_get IMAGE_CONTROLS kv.1) as [[key [|entry table]]|];
    [left; by eexists| |by right].
  destruct (dict_get (entry :: table) kv.2); [left; by eexists|by right].
Qed.

(** [real_keys] raises nothing but [KeyError]. *)
Lemma real_keys_outcome (items acc : controls) :
  (∃ real, real_keys items acc = Ok real)
  ∨ real_keys items acc = Raise KeyError.
Proof.
  revert acc. induction items as [|kv items IH]; intros acc; cbn [real_keys].
  - left. by eexists.
  - destruct (real_pair_outcome kv) as [[p ->]| ->]; cbn [mbind result_bind];
      [apply IH|by right].
Qed.

(** [real_keys] returns when every control has its place in the table,
    and only then. *)
Lemma real_keys_returns (items acc : controls) :
  Forall (λ kv, is_ok (real_pair kv) = true) items ↔
  ∃ real, real_keys items acc = Ok real.
Proof.
  split.
  - intros Hall. revert acc.
    induction Hall as [|kv items Hkv _ IH]; intros acc; cbn [real_keys].
    + by eexists.
    + destruct (real_pair kv) as [p| |]; try discriminate.
      cbn [mbind result_bind]. apply IH.
  - revert acc. induction items as [|kv items IH]; intros acc; [done|].
    cbn [real_keys]. intros [real Hreal].
    destruct (real_pair kv) as [p| |] eqn:Hp; try discriminate.
    cbn [mbind result_bind] in Hreal. constructor; [by rewrite Hp|].
    apply (IH (dict_set acc p.1 p.2)). by exists real.
Qed.

Lemma dict_set_keeps_names (d : controls) (k name : string) (v x : value) :
  (name, v) ∈ d → ∃ v', (name, v') ∈ dict_set d k x.
Proof.
  induction d as [|[k0 v0] d IH]; cbn [dict_set].
  - intros Hin. by apply not_elem_of_nil in Hin.
  - intros Hin. apply elem_of_cons in Hin as [[= -> ->]|Hin].
    + destruct (decide (k0 = k)) as [->|]; eexists; left.
    + destruct (decide (k0 = k)) as [->|].
      * exists v. by right.
      * destruct (IH Hin) as [v' Hv']. exists v'. by right.
Qed.

Lemma check_id_outcome (c : controls) :
  check_id c = Ok tt ∨ check_id c = Raise AssertionError
  ∨ check_id c = Raise TypeError.
Proof.
  unfold check_id, py_assert.
  destruct (dict_get c "id"%string) as [[i|s]|]; auto.
  destruct (_ && _); auto.
Qed.

Lemma encode_payload_outcome (payload : string) :
  (∃ p, encode_payload payload = Ok p
        ∧ (payload = EmptyString ∨ has_surrogate payload = false))
  ∨ (encode_payload payload = Raise UnicodeEncodeError
     ∧ has_surrogate payload = true).
Proof.
  unfold encode_payload. destruct (decide (payload = EmptyString)).
  - left. eexists. split; [done|]. by left.
  - destruct (has_surrogate payload); [by right|].
    left. eexists. split; [done|]. by right.
Qed.

(** X5.  The errors of [get_code]: it always ends; as long as the integers
    it formats have at most 4300 digits, it raises nothing but
    [AssertionError], [TypeError], [KeyError] and [UnicodeEncodeError], the
    last for a payload that holds a surrogate only; an integer id outside
    [MIN_ID .. MAX_ID] gives [AssertionError]; with the id and the offset
    in order, a control whose name the table of controls does not know
    gives [KeyError]; and when the controls are encoded, a payload that
    holds a surrogate gives [UnicodeEncodeError]. *)
Theorem get_code_errors (payload : string) (c : controls) :
  get_code payload c ≠ Hang
  ∧ (∀ e, get_code payload c = Raise e →
          formats c →
          e = AssertionError ∨ e = TypeError ∨ e = KeyError
          ∨ (e = UnicodeEncodeError ∧ has_surrogate payload = true))
  ∧ (∀ i, dict_get c "id"%string = Some (VInt i) →
          i < MIN_ID ∨ MAX_ID < i →
          get_code payload c = Raise AssertionError)
  ∧ (∀ name v x,
        check_id c = Ok tt →
        default (VInt 0) (dict_get c "offset_x"%string) = VInt x →
        (name, v) ∈ c →
        dict_get IMAGE_CONTROLS name = None →
        get_code payload c = Raise KeyError)
  ∧ (∀ x real,
        check_id c = Ok tt →
        default (VInt 0) (dict_get c "offset_x"%string) = VInt x →
        real_keys (dict_set c "offset_x"%string (VInt (x + 1))) []
        = Ok real →
        formats c →
        has_surrogate payload = true →
        get_code payload c = Raise UnicodeEncodeError).
Proof.
  pose proof (check_id_outcome c) as Hid.
  pose proof (encode_payload_outcome payload) as Henc.
  assert (Hkeys : ∀ items,
             (∃ real, real_keys items [] = Ok real)
             ∨ real_keys items [] = Raise KeyError)
    by (intros; apply real_keys_outcome).
  unfold get_code, bump_offset_x.
  split; [|split; [|split; [|split]]].
  - destruct Hid as [-> | [-> | ->]]; cbn [mbind result_bind]; try done.
    destruct (default _ _) as [x|]; cbn [mbind result_bind]; [|done].
    destruct (Hkeys (dict_set c "offset_x"%string (VInt (x + 1))))
      as [[real ->]| ->]; cbn [mbind result_bind]; [|done].
    by destruct Henc as [(p & -> & _)|[-> _]].
  - intros e He _. revert He.
    destruct Hid as [-> | [-> | ->]]; cbn [mbind result_bind];
      try (intros [= <-]; auto).
    destruct (default _ _) as [x|]; cbn [mbind result_bind];
      [|intros [= <-]; auto].
    destruct (Hkeys (dict_set c "offset_x"%string (VInt (x + 1))))
      as [[real ->]| ->]; cbn [mbind result_bind];
      [|intros [= <-]; auto].
    destruct Henc as [(p & -> & _)|[-> Hs]]; cbn [mbind result_bind];
      [done|]. intros [= <-]. auto.
  - intros i Hi Hrange. unfold check_id, py_assert. rewrite Hi.
    replace ((MIN_ID <=? i) && (i <=? MAX_ID)) with false; [done|].
    symmetry. apply andb_false_iff.
    destruct Hrange; [left; apply Z.leb_gt|right; apply Z.leb_gt]; lia.
  - intros name v x Hcheck Hx Hin Hname.
    rewrite Hcheck, Hx. cbn [mbind result_bind].
    destruct (Hkeys (dict_set c "offset_x"%string (VInt (x + 1))))
      as [Hreal| ->]; [|done].
    exfalso. apply real_keys_returns in Hreal.
    destruct (dict_set_keeps_names c "offset_x"%string name v (VInt (x + 1)) Hin)
      as [v' Hv'].
    rewrite Forall_forall in Hreal. specialize (Hreal _ Hv').
    unfold real_pair in Hreal. cbn [fst] in Hreal. by rewrite Hname in Hreal.
  - intros x real Hcheck Hx Hreal _ Hs.
    rewrite Hcheck, Hx. cbn [mbind result_bind]. rewrite Hreal.
    cbn [mbind result_bind].
    destruct Henc as [(p & _ & [->|Hno])|[-> _]]; [done|congruence|done].
Qed.

(** X6.  [get_code] returns a message when the id, if given, is an integer
    within [MIN_ID .. MAX_ID], the offset [offset_x], if given, is an
    integer, [offset_x] has an entry without a table of values, every
    other control has an entry whose table of values is empty or holds the
    value given, the integers to format have at most 4300 digits, and the
    payload holds no surrogate. *)
Theorem get_code_returns (payload : string) (c : controls) :
  (∀ v, dict_get c "id"%string = Some v →
        ∃ i, v = VInt i ∧ MIN_ID <= i <= MAX_ID) →
  (∀ v, dict_get c "offset_x"%string = Some v → ∃ x, v = VInt x) →
  (∃ key, dict_get IMAGE_CONTROLS "offset_x"%string = Some (key, [])) →
  (∀ name v, (name, v) ∈ c → name ≠ "offset_x"%string →
             ∃ key table, dict_get IMAGE_CONTROLS name = Some (key, table)
                          ∧ (table = [] ∨ is_Some (dict_get table v))) →
  formats c →
  has_surrogate payload = false →
  ∃ code, get_code payload c = Ok code.
Proof.
  intros Hid Hx [key Hkey] Hknown _ Hpayload. unfold get_code.
  assert (check_id c = Ok tt) as ->.
  { unfold check_id. destruct (dict_get c "id"%string) as [v|]; [|done].
    destruct (Hid v eq_refl) as (i & -> & Hi). unfold py_assert.
    replace ((MIN_ID <=? i) && (i <=? MAX_ID)) with true; [done|].
    symmetry. apply andb_true_iff. split; apply Z.leb_le; lia. }
  cbn [mbind result_bind]. unfold bump_offset_x.
  assert (∃ x, default (VInt 0) (dict_get c "offset_x"%string) = VInt x)
    as [x ->].
  { destruct (dict_get c "offset_x"%string) as [v|]; [|by exists 0].
    destruct (Hx v eq_refl) as [x ->]. by exists x. }
  cbn [mbind result_bind].
  assert (∃ p, encode_payload payload = Ok p) as [p Hp].
  { unfold encode_payload. rewrite Hpayload.
    destruct (decide _); by eexists. }
  destruct (proj1 (real_keys_returns
                     (dict_set c "offset_x"%string (VInt (x + 1))) []))
    as [real ->]; [|cbn [mbind result_bind]; rewrite Hp; by eexists].
  apply Forall_forall. intros [name v] Hin.
  destruct (decide (name = "offset_x"%string)) as [->|Hne].
  - unfold real_pair. cbn [fst snd]. by rewrite Hkey.
  - assert (Hc : (name, v) ∈ c) by by apply dict_set_others in Hin.
    destruct (Hknown name v Hc Hne) as (k & table & Ht & Hv).
    unfold real_pair. cbn [fst snd]. rewrite Ht.
    destruct Hv as [->|[v' Hv']]; [done|].
    destruct table; [done|]. by rewrite Hv'.
Qed.

End TerminalMore.

(** ** Resizing *)

Section ImageMore.

Context {bitmap filter : Type} `{!Pil bitmap filter} `{!Data} `{!Random}.

Implicit Types (w : world bitmap filter) (img : Image bitmap) (wh : Z * Z).

(** X7.  [resize] with no maximum on either side never scales: the
    maxima default to the size of the image, so neither branch is entered;
    the call returns the image itself when both minima are within its size
    and fails the assertion otherwise, and the world is unchanged. *)
Theorem resize_without_max_never_scales fuel self min_w min_h max_w max_h
  stretch resample w img :
  heap w !! self = Some img →
  truthy max_w = false → truthy max_h = false →
  0 <= (bitmap_size (_pil_image img)).1 →
  0 <= (bitmap_size (_pil_image img)).2 →
  0 <= min_w → 0 <= min_h →
  resize fuel self min_w min_h max_w max_h stretch resample w
  = (if (min_w <=? (bitmap_size (_pil_image img)).1)
        && (min_h <=? (bitmap_size (_pil_image img)).2)
     then Ok self else Raise AssertionError, w).
Proof.
  intros Hself Hmw Hmh Hiw Hih Hw Hh.
  rewrite (resize_unfold _ _ _ _ _ _ _ _ _ _ Hself).
  unfold target. rewrite Hself.
  set (iw := (bitmap_size (_pil_image img)).1) in *.
  set (ih := (bitmap_size (_pil_image img)).2) in *.
  unfold new_size, bounds.
  assert (int_or max_w iw = iw) as ->
    by (destruct max_w as [v|]; [|done]; cbn in *; by destruct (v =? 0)).
  assert (int_or max_h ih = ih) as ->
    by (destruct max_h as [v|]; [|done]; cbn in *; by destruct (v =? 0)).
  unfold _negative_col_to_px, _negative_row_to_px.
  rewrite !(proj2 (Z.leb_le 0 _)) by done. cbn [mbind result_bind].
  unfold py_assert.
  destruct (min_w <=? iw); cbn [mbind result_bind andb]; [|done].
  destruct (min_h <=? ih); cbn [mbind result_bind]; [|done].
  unfold upscales, downscales. rewrite !Z.ltb_irrefl, !Z.gtb_ltb, !Z.ltb_irrefl.
  by rewrite andb_false_r.
Qed.

Lemma draw_unused_fresh fuel (used : gset Z) n r k :
  draw_unused fuel used n = Some (r, k) → r ∉ used.
Proof.
  revert n. induction fuel as [|fuel IH]; intros n; cbn [draw_unused];
    [done|].
  destruct (bool_decide (randint n ∈ used)) eqn:Hin; [apply IH|].
  intros [= <- <-]. by apply bool_decide_eq_false in Hin.
Qed.

Lemma _get_id_ids fuel w r w' :
  _get_id fuel w = (r, w') →
  (used_ids w ⊆ used_ids w')
  ∧ ∀ i, r = Ok i → Z.of_nat (size (used_ids w)) < MAX_ID →
         (i ∉ used_ids w) ∧ used_ids w' = {[i]} ∪ used_ids w.
Proof.
  unfold _get_id. destruct (Z.leb_spec MAX_ID (Z.of_nat (size (used_ids w)))).
  - intros [= <- <-]. split; [done|]. intros; lia.
  - destruct (draw_unused _ _ _) as [[i n]|] eqn:Hd; intros [= <- <-];
      cbn [used_ids].
    + split; [set_solver|]. intros ? [= <-] _.
      split; [by eapply draw_unused_fresh|done].
    + split; [done|]. intros; discriminate.
Qed.

(** The two ways [make_resized] can end: before anything is made, with
    the objects as they were, or with the new object at the end of the
    heap and the cache of the source extended. *)
Lemma make_resized_cases fuel self img wh resample w r w' :
  heap w !! self = Some img →
  make_resized fuel self img wh resample w = (r, w') →
  term w' = term w
  ∧ (used_ids w ⊆ used_ids w')
  ∧ ((heap w' = heap w ∧ is_ok r = false)
     ∨ ∃ f b i,
         r = Ok (length (heap w))
         ∧ pil_resize (_pil_image img) wh f = Ok b
         ∧ heap w'
           = <[self := {| id := id img; origin := origin img;
                          _pil_image := _pil_image img;
                          _resized_cache :=
                            <[wh := length (heap w)]> (_resized_cache img) |}]>
               (heap w ++ [{| id := i; origin := b; _pil_image := b;
                              _resized_cache := ∅ |}])
         ∧ (Z.of_nat (size (used_ids w)) < MAX_ID →
            (i ∉ used_ids w) ∧ used_ids w' = {[i]} ∪ used_ids w)).
Proof.
  intros Hself. unfold make_resized, lift, scale, new_image, alloc.
  unfold mbind, M_bind, mret, M_ret.
  destruct (resample_filter resample) as [f| |];
    [|intros [= <- <-]; split; [done|]; split; [done|]; by left..].
  destruct (pil_resize (_pil_image img) wh f) as [b| |] eqn:Hb;
    [|intros [= <- <-]; split; [done|]; split; [done|]; by left..].
  destruct (_get_id fuel _) as [[i| |] w1] eqn:Hid;
    pose proof (_get_id_world _ _ _ _ Hid) as (Hh & Hs & Ht);
    pose proof (_get_id_ids _ _ _ _ Hid) as (Hu & Hfresh);
    cbn [heap scaled term used_ids] in *;
    [|intros [= <- <-]; split; [done|]; split; [done|]; by left..].
  unfold cache_put. cbn [heap scaled term used_ids draws].
  assert (Hlt : (self < length (heap w))%nat) by by eapply lookup_lt_Some.
  rewrite Hh, lookup_app_l, Hself by done.
  intros [= <- <-]. cbn [heap term used_ids].
  split; [done|]. split; [done|]. right. exists f, b, i.
  split; [done|]. split; [done|]. split; [done|]. by apply Hfresh.
Qed.

(** X8.  What [resize] leaves alone, whatever its outcome: the terminal
    (nothing is printed or read), the ids already used, every other object
    of the heap, and the id, origin and bitmap of the image itself; at most
    one object is added. *)
Theorem resize_frame fuel self min_w min_h max_w max_h stretch resample
  w r w' :
  resize fuel self min_w min_h max_w max_h stretch resample w = (r, w') →
  term w' = term w
  ∧ (used_ids w ⊆ used_ids w')
  ∧ (∀ s, s ≠ self → (s < length (heap w))%nat →
          heap w' !! s = heap w !! s)
  ∧ (∀ img, heap w !! self = Some img →
       ∃ img', heap w' !! self = Some img' ∧ id img' = id img
               ∧ origin img' = origin img
               ∧ _pil_image img' = _pil_image img)
  ∧ (length (heap w') = length (heap w)
     ∨ length (heap w') = S (length (heap w))).
Proof.
  assert (Hsame : ∀ w1, heap w1 = heap w → term w1 = term w →
                        used_ids w ⊆ used_ids w1 →
            term w1 = term w
            ∧ (used_ids w ⊆ used_ids w1)
            ∧ (∀ s, s ≠ self → (s < length (heap w))%nat →
                    heap w1 !! s = heap w !! s)
            ∧ (∀ img, heap w !! self = Some img →
                 ∃ img', heap w1 !! self = Some img' ∧ id img' = id img
                       ∧ origin img' = origin img
                       ∧ _pil_image img' = _pil_image img)
            ∧ (length (heap w1) = length (heap w)
               ∨ length (heap w1) = S (length (heap w)))).
  { intros w1 Hh Ht Hu. rewrite Hh. repeat split; auto.
    intros img Himg. by exists img. }
  destruct (heap w !! self) as [img|] eqn:Hself.
  - rewrite (resize_unfold _ _ _ _ _ _ _ _ _ _ Hself).
    destruct (target w self min_w min_h max_w max_h stretch) as [[wh|]| |];
      try (intros [= <- <-]; by apply Hsame).
    destruct (_resized_cache img !! wh) eqn:Hc;
      [intros [= <- <-]; by apply Hsame|].
    intros Hm.
    destruct (make_resized_cases _ _ _ _ _ _ _ _ Hself Hm)
      as (Ht & Hu & [[Hh _]|(f & b & i & _ & _ & Hh & _)]);
      [by apply Hsame|].
    assert (Hlt : (self < length (heap w))%nat) by by eapply lookup_lt_Some.
    split; [done|]. split; [done|]. rewrite Hh. split; [|split].
    + intros s Hne Hs. rewrite list_lookup_insert_ne by done.
      by rewrite lookup_app_l.
    + intros img0 [= <-]. eexists.
      rewrite list_lookup_insert_eq by (rewrite length_app; lia). done.
    + right. rewrite length_insert, length_app. cbn. lia.
  - unfold resize, get_image, mbind, M_bind. rewrite Hself.
    intros [= <- <-]. by apply Hsame.
Qed.

(** X9.  When scaling gives bitmaps of the size asked for, [resize] keeps
    the caches exact: every entry of every cache names an object whose
    bitmap has the size the entry is filed under; and what [resize]
    returns is an object of the heap. *)
Theorem resize_keeps_cache_exact fuel self min_w min_h max_w max_h stretch
  resample w r w' :
  scales_exactly →
  cache_exact w →
  resize fuel self min_w min_h max_w max_h stretch resample w = (r, w') →
  cache_exact w'
  ∧ ∀ x, r = Ok x → is_Some (heap w' !! x).
Proof.
  intros Hpil Hw.
  destruct (heap w !! self) as [img|] eqn:Hself.
  - rewrite (resize_unfold _ _ _ _ _ _ _ _ _ _ Hself).
    destruct (target w self min_w min_h max_w max_h stretch) as [[wh|]| |];
      try (intros [= <- <-]; split; [done|]; intros x [= <-]; by eexists);
      try (intros [= <- <-]; split; [done|]; intros; discriminate).
    destruct (_resized_cache img !! wh) as [c|] eqn:Hc.
    { intros [= <- <-]. split; [done|]. intros x [= <-].
      destruct (Hw _ _ _ _ Hself Hc) as (img' & Hc' & _). by eexists. }
    intros Hm.
    destruct (make_resized_cases _ _ _ _ _ _ _ _ Hself Hm)
      as (Ht & Hu & [[Hh Hr]|(f & b & i & -> & Hb & Hh & _)]).
    { split; [|intros x ->; discriminate].
      intros s img0 wh0 r0. rewrite Hh. apply Hw. }
    assert (Hlt : (self < length (heap w))%nat) by by eapply lookup_lt_Some.
    assert (Hnew : heap w' !! length (heap w)
                   = Some {| id := i; origin := b; _pil_image := b;
                             _resized_cache := ∅ |}).
    { rewrite Hh, list_lookup_insert_ne by lia.
      rewrite lookup_app_r by lia. by rewrite Nat.sub_diag. }
    assert (Hold : ∀ x img0, heap w !! x = Some img0 →
               ∃ img1, heap w' !! x = Some img1
                       ∧ _pil_image img1 = _pil_image img0).
    { intros x img0 Hx.
      assert ((x < length (heap w))%nat) by by eapply lookup_lt_Some.
      rewrite Hh. destruct (decide (x = self)) as [->|Hne].
      - rewrite list_lookup_insert_eq by (rewrite length_app; lia).
        eexists. split; [done|]. cbn. congruence.
      - rewrite list_lookup_insert_ne by done. rewrite lookup_app_l by done.
        by exists img0. }
    split; [|intros x [= <-]; by eexists].
    intros s img0 wh0 r0 Hs Hc0. rewrite Hh in Hs.
    destruct (decide (s = self)) as [->|Hne].
    + rewrite list_lookup_insert_eq in Hs by (rewrite length_app; lia).
      injection Hs as <-. cbn [_resized_cache] in Hc0.
      destruct (decide (wh = wh0)) as [<-|Hwh].
      * rewrite lookup_insert_eq in Hc0. injection Hc0 as <-.
        eexists. split; [done|]. cbn. by eapply Hpil.
      * rewrite lookup_insert_ne in Hc0 by done.
        destruct (Hw _ _ _ _ Hself Hc0) as (img1 & Hr1 & Hsz).
        destruct (Hold _ _ Hr1) as (img2 & Hr2 & Hp). exists img2.
        split; [done|]. congruence.
    + rewrite list_lookup_insert_ne in Hs by done.
      destruct (decide (s = length (heap w))) as [->|Hs'].
      * rewrite lookup_app_r, Nat.sub_diag in Hs by lia.
        injection Hs as <-. cbn [_resized_cache] in Hc0.
        by rewrite lookup_empty in Hc0.
      * assert ((s < length (heap w))%nat).
        { apply lookup_lt_Some in Hs. rewrite length_app in Hs. cbn in Hs. lia. }
        rewrite lookup_app_l in Hs by done.
        destruct (Hw _ _ _ _ Hs Hc0) as (img1 & Hr1 & Hsz).
        destruct (Hold _ _ Hr1) as (img2 & Hr2 & Hp). exists img2.
        split; [done|]. congruence.
  - unfold resize, get_image, mbind, M_bind. rewrite Hself.
    intros [= <- <-]. split; [done|]. intros; discriminate.
Qed.

(** X10.  While fewer than [MAX_ID] ids are in use, [resize] keeps the ids
    of the objects pairwise distinct and registered in [used_ids]: the
    image it makes gets an id no other object has. *)
Theorem resize_keeps_ids_distinct fuel self min_w min_h max_w max_h stretch
  resample w r w' :
  ids_registered w →
  Z.of_nat (size (used_ids w)) < MAX_ID →
  resize fuel self min_w min_h max_w max_h stretch resample w = (r, w') →
  ids_registered w'.
Proof.
  intros [Hnd Hreg] Hroom.
  destruct (heap w !! self) as [img|] eqn:Hself.
  - rewrite (resize_unfold _ _ _ _ _ _ _ _ _ _ Hself).
    destruct (target w self min_w min_h max_w max_h stretch) as [[wh|]| |];
      try (intros [= <- <-]; by split).
    destruct (_resized_cache img !! wh) as [c|] eqn:Hc;
      [intros [= <- <-]; by split|].
    intros Hm.
    destruct (make_resized_cases _ _ _ _ _ _ _ _ Hself Hm)
      as (Ht & Hu & [[Hh Hr]|(f & b & i & -> & Hb & Hh & Hfresh)]).
    { split; rewrite Hh; [done|]. intros img0 Hin. apply Hu. by apply Hreg. }
    destruct (Hfresh Hroom) as [Hi Hused].
    assert (Hlt : (self < length (heap w))%nat) by by eapply lookup_lt_Some.
    assert (Hids : id <$> heap w' = (id <$> heap w) ++ [i]).
    { rewrite Hh, list_fmap_insert, fmap_app. cbn [fmap list_fmap id].
      apply list_insert_id. rewrite lookup_app_l by (by rewrite length_fmap).
      by rewrite list_lookup_fmap, Hself. }
    split.
    + rewrite Hids. apply NoDup_app. split; [done|]. split; [|apply NoDup_singleton].
      intros x Hx Hx'. apply list_elem_of_singleton in Hx' as ->.
      apply list_elem_of_fmap in Hx as (img0 & -> & Hin). by apply Hi, Hreg.
    + intros img0 Hin.
      assert (Hid0 : id img0 ∈ id <$> heap w')
        by (apply list_elem_of_fmap; by exists img0).
      rewrite Hids in Hid0. rewrite Hused.
      apply elem_of_app in Hid0 as [Hold|Hnew].
      * apply list_elem_of_fmap in Hold as (img1 & -> & Hin1).
        apply elem_of_union_r. by apply Hreg.
      * apply list_elem_of_singleton in Hnew as ->.
        apply elem_of_union_l. by apply elem_of_singleton.
  - unfold resize, get_image, mbind, M_bind. rewrite Hself.
    intros [= <- <-]. by split.
Qed.

End ImageMore.

(** ** Axes and capacity *)

Section AxisMore.

Import Grid.

Context {T : Type} `{!AxisCalls T}.

Lemma Axis_getitem_item (self : Axis T) (index k : Z) (item : AxisCell T) :
  list_getitem (data self) k = Ok item →
  (list_getitem (data self) index = Ok item
   ∨ (list_getitem (data self) index = Raise IndexError
      ∧ (if wrap_around self
         then py_mod index (Z.of_nat (length (data self)))
         else Ok (-1)) = Ok k)) →
  Axis_getitem self index = Ok (cell_of self index item).
Proof.
  intros Hk [Hi|[Hi Hw]]; unfold Axis_getitem.
  - rewrite Hi. cbn [mbind result_bind]. by destruct item.
  - rewrite Hi, Hw. cbn [mbind result_bind]. rewrite Hk.
    cbn [mbind result_bind]. by destruct item.
Qed.

(** On a wrapping axis every index resolves to the entry at
    [index % len]. *)
Lemma wrapping_axis_entry (self : Axis T) (index : Z) :
  wrap_around self = true →
  data self ≠ [] →
  ∃ item,
    data self !! Z.to_nat (index mod Z.of_nat (length (data self)))
    = Some item
    ∧ Axis_getitem self index = Ok (cell_of self index item).
Proof.
  intros Hwrap Hne.
  set (n := Z.of_nat (length (data self))).
  assert (Hn : 0 < n) by (subst n; destruct (data self); [done|simpl; lia]).
  pose proof (Z.mod_pos_bound index n Hn) as Hm.
  destruct (list_getitem_in_range (data self) (index mod n))
    as (item & Hitem & Hget); [fold n; lia|].
  replace (index mod n <? 0) with false in Hitem
    by (symmetry; apply Z.ltb_ge; lia).
  exists item. split; [done|].
  apply (Axis_getitem_item self index (index mod n) item Hget).
  destruct (decide (- n <= index < n)) as [Hin|Hout].
  - left. destruct (list_getitem_in_range (data self) index Hin)
      as (x & Hx & Hg).
    rewrite Hg. f_equal. fold n in Hx.
    assert (Hsame : (if index <? 0 then index + n else index) = index mod n).
    { destruct (Z.ltb_spec index 0).
      - apply (Z.mod_unique index n (-1)); lia.
      - symmetry. apply Z.mod_small. lia. }
    rewrite Hsame in Hx. congruence.
  - right. split; [by apply list_getitem_out_of_range|].
    rewrite Hwrap. unfold py_mod. fold n.
    by rewrite (proj2 (Z.eqb_neq n 0)) by lia.
Qed.

(** X11.  A wrapping axis with at least one entry is periodic: an index
    and the same index moved by any multiple of the length, negative ones
    included, resolve to the same entry; a callable entry is called with
    the axis and the index as given. *)
Theorem wrapping_axis_is_periodic (self : Axis T) (index k : Z) :
  wrap_around self = true →
  data self ≠ [] →
  ∃ item,
    Axis_getitem self index = Ok (cell_of self index item)
    ∧ Axis_getitem self (index + k * Z.of_nat (length (data self)))
      = Ok (cell_of self (index + k * Z.of_nat (length (data self))) item).
Proof.
  intros Hwrap Hne.
  destruct (wrapping_axis_entry self index Hwrap Hne)
    as (item & Hitem & Hget).
  destruct (wrapping_axis_entry self
              (index + k * Z.of_nat (length (data self))) Hwrap Hne)
    as (item' & Hitem' & Hget').
  rewrite Z_mod_plus_full, Hitem in Hitem'. injection Hitem' as <-.
  by exists item.
Qed.

(** X12.  Indexing an axis without entries raises: [IndexError] when the
    axis does not wrap around (the fallback [data[-1]] fails too),
    [ZeroDivisionError] when it does ([index % 0]). *)
Theorem empty_axis_raises (self : Axis T) (index : Z) :
  data self = [] →
  Axis_getitem self index
  = Raise (if wrap_around self then ZeroDivisionError else IndexError).
Proof.
  intros Hempty.
  assert (Hget : ∀ k, list_getitem (data self) k = Raise IndexError).
  { intros k. apply list_getitem_out_of_range. rewrite Hempty. cbn. lia. }
  unfold Axis_getitem, py_mod. rewrite Hget, Hempty.
  destruct (wrap_around self); cbn [length Z.of_nat Z.eqb mbind result_bind].
  - done.
  - rewrite <- Hempty, Hget. done.
Qed.

End AxisMore.

Section CapacityMore.

Import Grid.

Context {T : Type} `{!SizeValue T} `{!AxisCalls T}.

Lemma parity_at_least_one (g : Grid T) (n r : Z) :
  parity g n = Ok r →
  1 <= r
  ∧ (force_even g = true → 2 <= r ∧ Z.even r = true)
  ∧ (force_even g = false → force_odd g = true → Z.odd r = true).
Proof.
  unfold parity. destruct (force_even g).
  - destruct (int_div_float n two) as [q| |]; try discriminate.
    cbn [mbind result_bind]. destruct (floor q) as [f| |]; try discriminate.
    cbn [mbind result_bind]. intros [= <-].
    split; [lia|]. split; [|done]. intros _. split; [lia|].
    destruct (Z.max_spec 2 (f * 2)) as [[_ ->]|[_ ->]]; [|done].
    rewrite Z.even_mul. apply orb_true_r.
  - destruct (force_odd g).
    + intros [= <-]. split; [lia|]. split; [done|]. intros _ _.
      pose proof (Z.mod_pos_bound n 2 eq_refl) as Hmod.
      pose proof (Z.div_mod n 2) as Hdiv.
      destruct (Z.eqb_spec (n mod 2) 0) as [H0|H1].
      * destruct (Z.max_spec 1 (n - 1)) as [[_ ->]|[_ ->]]; [|done].
        replace (n - 1) with (1 + 2 * (n / 2 - 1)) by lia.
        by rewrite Z.odd_add_mul_2.
      * destruct (Z.max_spec 1 n) as [[_ ->]|[_ ->]]; [|done].
        replace n with (1 + 2 * (n / 2)) by lia.
        by rewrite Z.odd_add_mul_2.
    + intros [= <-]. split; [lia|]. done.
Qed.

(** X13.  Whatever the terminal and the columns, and for every count, those
    beyond [2 ^ 53] included: when [cells_per_row] returns, the result is
    at least 1; with [force_even] it is even and at least 2; with
    [force_odd] alone it is odd. *)
Theorem cells_per_row_parity_always (fuel : nat) (g : Grid T) (m : metrics)
  (r : Z) :
  cells_per_row fuel g m = Ok r →
  1 <= r
  ∧ (force_even g = true → 2 <= r ∧ Z.even r = true)
  ∧ (force_even g = false → force_odd g = true → Z.odd r = true).
Proof.
  unfold cells_per_row.
  destruct (can_fit fuel g m) as [n| |]; try discriminate.
  cbn [mbind result_bind]. apply parity_at_least_one.
Qed.

End CapacityMore.

(** ** Traversal *)

Section TraversalMore.

Import Grid.

Context {bitmap filter : Type} `{!Pil bitmap filter}.
Context {T : Type} `{!SizeValue T}.
Context `{!Data} `{!Blessed} `{!Random} `{!AxisCalls T} `{!Text T}.

Lemma bind_Ok {A B} (m : M bitmap filter A) (f : A → M bitmap filter B)
  (w w' : world bitmap filter) (b : B) :
  (m ≫= f) w = (Ok b, w') →
  ∃ a w1, m w = (Ok a, w1) ∧ f a w1 = (Ok b, w').
Proof.
  unfold mbind, M_bind. destruct (m w) as [[a|e|] w1]; try discriminate.
  eauto.
Qed.

Ltac bind_inv H :=
  let a := fresh "a" in
  let w1 := fresh "w" in
  let Ha := fresh "Ha" in
  apply bind_Ok in H; destruct H as (a & w1 & Ha & H).

Lemma lift_Ok {A} (r : result A) (w w' : world bitmap filter) (a : A) :
  lift r w = (Ok a, w') → r = Ok a.
Proof. unfold lift. by intros [= -> _]. Qed.

Lemma cells_per_row_fixed (fuel : nat) (g : Grid T) (m : metrics) :
  truthy (max_cols g) = true →
  cells_per_row fuel g m = parity g (int_or (max_cols g) 0).
Proof. intros Hmax. unfold cells_per_row, can_fit. by rewrite Hmax. Qed.

Lemma show_item_next (depth fuel : nat) (g : Grid T) (content : Content)
  (at_ : Z * Z) (p : Z) (w w' : world bitmap filter) (next : option (Z * Z)) :
  truthy (max_cols g) = true →
  parity g (int_or (max_cols g) 0) = Ok p →
  show_item depth fuel g content at_ w = (Ok next, w') →
  next = advance g p at_.
Proof.
  intros Hmax Hp. destruct at_ as [col row]. unfold show_item, advance.
  cbn [fst snd]. intros Hrun.
  repeat bind_inv Hrun.
  match goal with
  | Hc : lift (cells_per_row _ _ _) _ = _ |- _ =>
      apply lift_Ok in Hc; rewrite (cells_per_row_fixed _ _ _ Hmax), Hp in Hc;
      injection Hc as <-
  end.
  destruct (col + 1 >=? p).
  - repeat bind_inv Hrun.
    destruct (truthy (max_rows g) && (row + 1 >? int_or (max_rows g) 0));
      by injection Hrun as <- _.
  - by injection Hrun as <- _.
Qed.

(** As long as the loop does not break, the position counts the items shown:
    [col + row * per_row] grows by one per item. *)
Lemma show_loop_counts (depth fuel : nat) (g : Grid T) (p : Z)
  (items : list Content) :
  truthy (max_cols g) = true →
  parity g (int_or (max_cols g) 0) = Ok p →
  ∀ (at_ end_ : Z * Z) (w w' : world bitmap filter),
    0 <= at_.1 < p →
    show_loop depth fuel g items at_ w = (Ok (end_, false), w') →
    0 <= end_.1 < p
    ∧ end_.1 + end_.2 * p
      = at_.1 + at_.2 * p + Z.of_nat (length items)
    ∧ (truthy (max_rows g) = true →
       at_.2 <= int_or (max_rows g) 0 → end_.2 <= int_or (max_rows g) 0).
Proof.
  intros Hmax Hp. induction items as [|item items IH];
    intros at_ end_ w w' Hat; cbn [show_loop length].
  - intros [= <- _]. split; [done|]. split; [lia|done].
  - intros Hrun. apply bind_Ok in Hrun.
    destruct Hrun as (next & w1 & Hitem & Hrest).
    apply (show_item_next _ _ _ _ _ p) in Hitem; [|done..].
    subst next. unfold advance in Hrest.
    destruct (Z.geb_spec (at_.1 + 1) p) as [Hwrap|Hstay].
    + destruct (truthy (max_rows g)) eqn:Hrows; cbn [andb] in Hrest.
      * destruct (Z.gtb_spec (at_.2 + 1) (int_or (max_rows g) 0))
          as [Hover|Hfits]; [discriminate|].
        apply IH in Hrest as (Hcol & Hsum & Hmr); cbn [fst snd] in *; [|lia].
        split; [done|]. split; [nia|]. intros _ _. apply Hmr; [done|lia].
      * apply IH in Hrest as (Hcol & Hsum & Hmr); cbn [fst snd] in *; [|lia].
        split; [done|]. split; [nia|]. done.
    + apply IH in Hrest as (Hcol & Hsum & Hmr); cbn [fst snd] in *; [|lia].
      split; [done|]. split; [lia|]. done.
Qed.

(** X14.  With [max_cols] set, [show] fills the grid row by row: as long
    as the loop has not ended on its [break], after [n] items the position
    is column [n % per_row] of row [n // per_row], where [per_row] is
    [cells_per_row]; and with [max_rows] set as well, this holds for fewer
    than [per_row * (max_rows + 1)] items only. *)
Theorem show_is_row_major (depth fuel : nat) (g : Grid T) (p : Z)
  (items : list Content) (end_ : Z * Z) (w w' : world bitmap filter) :
  truthy (max_cols g) = true →
  parity g (int_or (max_cols g) 0) = Ok p →
  show_loop depth fuel g items (0, 0) w = (Ok (end_, false), w') →
  end_ = (Z.of_nat (length items) mod p, Z.of_nat (length items) / p)
  ∧ (truthy (max_rows g) = true →
     0 <= int_or (max_rows g) 0 →
     Z.of_nat (length items) < p * (int_or (max_rows g) 0 + 1)).
Proof.
  intros Hmax Hp Hrun.
  pose proof (proj1 (parity_at_least_one _ _ _ Hp)) as Hpos.
  apply (show_loop_counts _ _ _ p) in Hrun as (Hcol & Hsum & Hmr);
    cbn [fst snd] in *; [|done..|lia].
  destruct end_ as [c r]. cbn [fst snd] in *. split.
  - f_equal.
    + apply (Z.mod_unique _ p r); lia.
    + apply (Z.div_unique _ p r c); lia.
  - intros Hrows Hbound. specialize (Hmr Hrows Hbound). nia.
Qed.



End TraversalMore.

(** ** Content *)

Section PyMore.

Lemma max_by_spec {A} (key : A → Z) (l : list A) (best : A) :
  max_by key best l ∈ best :: l
  ∧ ∀ x, x ∈ best :: l → key x <= key (max_by key best l).
Proof.
  revert best. induction l as [|y l IH]; intros best; cbn [max_by].
  - split; [left|]. intros x Hx. apply list_elem_of_singleton in Hx as ->. lia.
  - destruct (IH (if key best <? key y then y else best)) as [Hin Hmax].
    split.
    + apply elem_of_cons in Hin as [Heq|Hin].
      * rewrite Heq. destruct (key best <? key y); [right; left|left].
      * right. by right.
    + intros x Hx.
      assert (Hb : key best <= key (max_by key (if key best <? key y then y else best) l)
                   ∧ key y <= key (max_by key (if key best <? key y then y else best) l)).
      { pose proof (Hmax _ (list_elem_of_here _ _)) as Hm.
        destruct (Z.ltb_spec (key best) (key y)); lia. }
      apply elem_of_cons in Hx as [->|Hx]; [lia|].
      apply elem_of_cons in Hx as [->|Hx]; [lia|].
      apply Hmax. by right.
Qed.

Lemma slice_to_length {A} (l : list A) (n : Z) :
  0 <= n → Z.of_nat (length (slice_to l n)) = Z.min n (Z.of_nat (length l)).
Proof.
  intros Hn. unfold slice_to.
  rewrite (proj2 (Z.leb_le 0 n)) by done. rewrite length_take. lia.
Qed.

Lemma slice_to_lookup {A} (l : list A) (n : Z) (i : nat) (x : A) :
  0 <= n → slice_to l n !! i = Some x → l !! i = Some x.
Proof.
  intros Hn. unfold slice_to.
  rewrite (proj2 (Z.leb_le 0 n)) by done.
  intros Hx. by apply lookup_take_Some in Hx as [? _].
Qed.

End PyMore.

Section ContentMore.

Import Grid.

Context {bitmap filter : Type} `{!Pil bitmap filter}.
Context {T : Type} `{!SizeValue T}.
Context `{!Data} `{!Blessed} `{!Random} `{!AxisCalls T} `{!Text T}.

Lemma target_fits (w : world bitmap filter) (self : nat) (img : Image bitmap)
  (max_w max_h : Z) (stretch : bool) :
  heap w !! self = Some img →
  1 <= (bitmap_size (_pil_image img)).1 <= max_w →
  1 <= (bitmap_size (_pil_image img)).2 <= max_h →
  target w self 1 1 (Some max_w) (Some max_h) stretch = Ok None.
Proof.
  intros Hself Hw Hh. unfold target. rewrite Hself.
  unfold new_size, bounds, int_or, _negative_col_to_px, _negative_row_to_px.
  rewrite (proj2 (Z.eqb_neq max_w 0)), (proj2 (Z.eqb_neq max_h 0)) by lia.
  rewrite (proj2 (Z.leb_le 0 max_w)), (proj2 (Z.leb_le 0 max_h)) by lia.
  cbn [Z.leb Z.compare mbind result_bind].
  rewrite (proj2 (Z.leb_le 1 max_w)), (proj2 (Z.leb_le 1 max_h)) by lia.
  cbn [py_assert mbind result_bind].
  unfold upscales, downscales.
  rewrite (proj2 (Z.ltb_ge _ 1)), (proj2 (Z.ltb_ge _ 1)) by lia.
  cbn [orb andb].
  rewrite !Z.gtb_ltb.
  rewrite (proj2 (Z.ltb_ge max_w _)), (proj2 (Z.ltb_ge max_h _)) by lia.
  done.
Qed.

(** X16.  An image that fits its cell, at least one pixel wide and high,
    is used as it is: [_get_content] returns the same object with its own
    width and height, nothing is scaled, allocated or printed. *)
Theorem fitting_image_is_shown_unscaled (depth fuel : nat) (g : Grid T)
  (cell : nat) (col row : Z) (c r : Cell T) (img : Image bitmap)
  (w : world bitmap filter) :
  Axis_getitem (cols g) col = Ok c →
  Axis_getitem (rows g) row = Ok r →
  heap w !! cell = Some img →
  1 <= (bitmap_size (_pil_image img)).1 <= px (size c) →
  1 <= (bitmap_size (_pil_image img)).2 <= px (size r) →
  _get_content depth fuel g (CImage cell) col row w
  = (Ok (RImage cell, width_of img, height_of img), w).
Proof.
  intros Hc Hr Hself Hw Hh.
  destruct depth; cbn [_get_content];
    unfold _get_resized_image, try_except, mbind, M_bind, lift, mret, M_ret;
    rewrite Hc, Hr, (resize_unfold _ _ _ _ _ _ _ _ _ _ Hself),
      (target_fits _ _ _ _ _ _ Hself Hw Hh);
    unfold get_image; by rewrite Hself.
Qed.

Lemma wrap_lines_lists (g : Grid T) (col : Z) (c : Cell T)
  (lines : list string) :
  Axis_getitem (cols g) col = Ok c →
  (∀ line, ∃ l, ansiwrap (text_overflow g) line (cells (size c))
                  (cut_placeholder g) = Ok (WList l)) →
  ∃ ls, wrap_lines g col lines = Ok ls
        ∧ length ls = length lines
        ∧ ∀ x, x ∈ ls → ∃ l, x = WList l.
Proof.
  intros Hc Hwrap. induction lines as [|line lines IH]; cbn [wrap_lines].
  - exists []. split; [done|]. split; [done|]. intros x Hx. inversion Hx.
  - destruct IH as (ls & -> & Hlen & Hall). destruct (Hwrap line) as [l Hl].
    rewrite Hc. cbn [mbind result_bind]. rewrite Hl. cbn [mbind result_bind].
    exists (WList l :: ls). split; [done|]. split; [cbn; lia|].
    intros x Hx. apply elem_of_cons in Hx as [->|Hx]; [by exists l|by apply Hall].
Qed.

Lemma split_nl_nonempty (s : string) : split_nl s ≠ [].
Proof.
  induction s as [|ch s IH]; cbn [split_nl]; [done|].
  destruct (Ascii.eqb ch "010"); [done|]. by destruct (split_nl s).
Qed.

(** X18.  When the function of [ansiwrap] named by [text_overflow] gives
    a list of lines for each line (as a wrapping function does), the join
    of [_get_text] fails: for any text and a row at least one cell high,
    [_get_text] raises [TypeError]. *)
Theorem wrapped_lists_cannot_be_joined (g : Grid T) (cell : string)
  (col row : Z) (c r : Cell T) :
  text_overflow g ∈ ["wrap"; "shorten"]%string →
  Axis_getitem (cols g) col = Ok c →
  Axis_getitem (rows g) row = Ok r →
  0 < cells (size r) →
  (∀ line, ∃ l, ansiwrap (text_overflow g) line (cells (size c))
                  (cut_placeholder g) = Ok (WList l)) →
  _get_text g cell col row = Raise TypeError.
Proof.
  intros Hmode Hc Hr Hcells Hwrap. unfold _get_text.
  rewrite (bool_decide_eq_true_2 _ Hmode). cbn [py_assert mbind result_bind].
  destruct (wrap_lines_lists g col c (split_nl cell) Hc Hwrap)
    as (ls & -> & Hlen & Hall).
  cbn [mbind result_bind]. rewrite Hr. cbn [mbind result_bind].
  pose proof (split_nl_nonempty cell) as Hne.
  destruct ls as [|x ls]; [destruct (split_nl cell); done|].
  destruct (Hall x (list_elem_of_here _ _)) as [l ->].
  unfold slice_to. rewrite (proj2 (Z.leb_le 0 _)) by lia.
  destruct (Z.to_nat (cells (size r))) as [|n] eqn:Hn; [lia|].
  done.
Qed.

Lemma wrap_lines_lookup (g : Grid T) (col : Z) (lines : list string)
  (ls : list wrapped) :
  wrap_lines g col lines = Ok ls →
  length ls = length lines
  ∧ ∀ (i : nat) x, ls !! i = Some x →
      ∃ line c, lines !! i = Some line
                ∧ Axis_getitem (cols g) col = Ok c
                ∧ ansiwrap (text_overflow g) line (cells (size c))
                    (cut_placeholder g) = Ok x.
Proof.
  revert ls. induction lines as [|line lines IH]; intros ls; cbn [wrap_lines].
  - intros [= <-]. split; [done|]. intros i x Hx. by destruct i.
  - destruct (Axis_getitem (cols g) col) as [c| |] eqn:Hc; try discriminate.
    cbn [mbind result_bind].
    destruct (ansiwrap _ _ _ _) as [l| |] eqn:Hl; try discriminate.
    cbn [mbind result_bind].
    destruct (wrap_lines g col lines) as [ls'| |]; try discriminate.
    cbn [mbind result_bind]. intros [= <-].
    destruct (IH ls' eq_refl) as [Hlen Hall]. split; [cbn; lia|].
    intros [|i] x Hx; cbn in Hx.
    + injection Hx as <-. by exists line, c.
    + destruct (Hall i x Hx) as (line' & c' & H1' & H2' & H3').
      by exists line', c'.
Qed.

Lemma strings_of_lookup (l : list wrapped) (ss : list string) :
  strings_of l = Ok ss → l = WStr <$> ss.
Proof.
  revert ss. induction l as [|[s|x] l IH]; intros ss; cbn [strings_of].
  - by intros [= <-].
  - destruct (strings_of l) as [ss'| |]; try discriminate.
    cbn [mbind result_bind]. intros [= <-]. cbn. f_equal. by apply IH.
  - discriminate.
Qed.

(** X19.  [_get_text] cuts the text to the height of the row: when it
    returns, the text is the newline-join of the first [cells] lines of the
    content (all of them when there are fewer), each as [ansiwrap] returned
    it for the width of the column. *)
Theorem text_is_cut_to_the_row (g : Grid T) (cell : string) (col row : Z)
  (r : Cell T) (text : string) :
  Axis_getitem (rows g) row = Ok r →
  0 <= cells (size r) →
  _get_text g cell col row = Ok text →
  ∃ ss : list string,
    text = join (String "010" EmptyString) ss
    ∧ Z.of_nat (length ss)
      = Z.min (cells (size r)) (Z.of_nat (length (split_nl cell)))
    ∧ ∀ (i : nat) s, ss !! i = Some s →
        ∃ line c, split_nl cell !! i = Some line
                  ∧ Axis_getitem (cols g) col = Ok c
                  ∧ ansiwrap (text_overflow g) line (cells (size c))
                      (cut_placeholder g) = Ok (WStr s).
Proof.
  intros Hr Hcells. unfold _get_text.
  destruct (py_assert _); try discriminate. cbn [mbind result_bind].
  destruct (wrap_lines g col (split_nl cell)) as [ls| |] eqn:Hls;
    try discriminate.
  cbn [mbind result_bind]. rewrite Hr. cbn [mbind result_bind].
  destruct (strings_of _) as [ss| |] eqn:Hss; try discriminate.
  cbn [mbind result_bind]. intros [= <-].
  apply strings_of_lookup in Hss. apply wrap_lines_lookup in Hls as [Hlen Hall].
  exists ss. split; [done|]. split.
  - rewrite <- Hlen, <- slice_to_length by done.
    by rewrite Hss, length_fmap.
  - intros i s Hs. apply (Hall i (WStr s)).
    apply (slice_to_lookup _ (cells (size r))); [done|].
    by rewrite Hss, list_lookup_fmap, Hs.
Qed.

(** X17.  Measuring a text changes nothing: [_get_content] on a string
    leaves the world as it was, whatever the outcome; when it returns, the
    content is the text of [_get_text], the width is the [ansilen] of a
    line of that text that no other line exceeds, in cells, and the height
    is the number of lines of the text, in cells, [ansilen] giving for a
    list its length. *)
Theorem measuring_text_touches_nothing (depth fuel : nat) (g : Grid T)
  (cell : string) (col row : Z) (w : world bitmap filter) :
  (∀ lines, ansilen_lines lines = Ok (Z.of_nat (length lines))) →
  (_get_content depth fuel g (CText cell) col row w).2 = w
  ∧ ∀ shown width height,
      (_get_content depth fuel g (CText cell) col row w).1
      = Ok (shown, width, height) →
      ∃ text longest,
        _get_text g cell col row = Ok text
        ∧ shown = RText text
        ∧ longest ∈ splitlines text
        ∧ (∀ line, line ∈ splitlines text → ansilen line <= ansilen longest)
        ∧ width = HSize_cells (ansilen longest)
        ∧ height = VSize_cells (Z.of_nat (length (splitlines text))).
Proof.
  intros Hcount.
  assert (Hbody : _get_content depth fuel g (CText cell) col row
            = (text ← lift (_get_text g cell col row);
               longest ← lift (py_max ansilen (splitlines text));
               num_lines ← lift (ansilen_lines (splitlines text));
               mret (RText text, HSize_cells (ansilen longest),
                     VSize_cells num_lines))) by by destruct depth.
  rewrite Hbody. unfold mbind, M_bind, lift, mret, M_ret.
  destruct (_get_text g cell col row) as [text| |]; [|by split..].
  unfold py_max. destruct (splitlines text) as [|x lines] eqn:Hlines;
    [by split|].
  rewrite Hcount. split; [done|]. cbn [fst].
  intros shown width height [= <- <- <-].
  exists text, (max_by ansilen x lines).
  destruct (max_by_spec ansilen lines x) as [Hin Hmax].
  rewrite Hlines. by repeat split.
Qed.

End ContentMore.

(** ** Display errors *)

Section DisplayMore.

Context {bitmap filter : Type} `{!Pil bitmap filter}.
Context {T : Type} `{!SizeValue T}.
Context `{!Data} `{!Blessed} `{!Random}.

Lemma run_code_refused (payload : string) (timeout : N) (c : controls)
  (t : tty) (code : string) (pre : list string) (rest : list event) :
  get_code payload c = Ok code →
  default (VStr "transmit") (dict_get c "action"%string)
    ∈ ACTIONS_WITH_ANSWER →
  Forall (λ ch, ch ≠ backslash) pre →
  input t = map Key pre ++ Key backslash :: rest →
  contains ";OK" (join EmptyString (pre ++ [backslash])) = false →
  (run_code payload timeout c t).1
  = Raise (KittyAnswerError code (join EmptyString (pre ++ [backslash]))).
Proof.
  intros Hcode Hact Hpre Hin Hno. unfold run_code.
  rewrite Hcode, bool_decide_true by done.
  cbn [input set_alarm print]. rewrite Hin, read_answer_until by done.
  cbn [app].
  rewrite (bool_decide_false (join EmptyString (pre ++ [backslash]) = EmptyString))
    by (apply join_last_nonempty; discriminate).
  by rewrite Hno.
Qed.

Lemma show_refused (self : nat) (z : Z) (relative_x relative_y : T)
  (img : Image bitmap) (w : world bitmap filter) (payload code : string)
  (pre : list string) (rest : list event) :
  heap w !! self = Some img →
  save_png (_pil_image img) = Ok payload →
  get_code payload (display_request z img) = Ok code →
  VStr "transmit+display" ∈ ACTIONS_WITH_ANSWER →
  Forall (λ ch, ch ≠ backslash) pre →
  input (term w) = map Key pre ++ Key backslash :: rest →
  contains ";OK" (join EmptyString (pre ++ [backslash])) = false →
  (show self z relative_x relative_y "left" w).1
  = Raise (KittyAnswerError code (join EmptyString (pre ++ [backslash]))).
Proof.
  intros Hself Hpng Hcode Hact Hpre Hin Hno.
  assert (Hrun : ∀ t, input t = input (term w) →
            (run_code payload 3 (display_request z img) t).1
            = Raise (KittyAnswerError code
                       (join EmptyString (pre ++ [backslash])))).
  { intros t Ht. apply (run_code_refused _ _ _ _ _ pre rest); try done.
    by rewrite Ht. }
  unfold show.
  unfold mbind, M_bind, mret, M_ret, lift, get_image, the_term.
  rewrite bool_decide_true by left. cbn [py_assert]. rewrite Hself.
  destruct (decide ("left"%string = "center"%string)) as [Heq|_];
    [discriminate|].
  destruct (decide ("left"%string = "right"%string)) as [Heq|_];
    [discriminate|].
  fold (display_request z img). rewrite Hpng.
  unfold print_esc, on_term.
  destruct (truth relative_x), (truth relative_y); cbn [term heap];
    match goal with
    | |- context [run_code payload 3 (display_request z img) ?t] =>
        specialize (Hrun t eq_refl);
        destruct (run_code payload 3 (display_request z img) t) as [res t']
    end;
    cbn [fst] in Hrun; by rewrite Hrun.
Qed.

End DisplayMore.

Section GridDisplayMore.

Import Grid.

Context {bitmap filter : Type} `{!Pil bitmap filter}.
Context {T : Type} `{!SizeValue T}.
Context `{!Data} `{!Blessed} `{!Random} `{!AxisCalls T} `{!Text T}.

Lemma bind_eq_Ok {A B} (m : M bitmap filter A) (f : A → M bitmap filter B)
  (w w1 : world bitmap filter) (a : A) :
  m w = (Ok a, w1) → (m ≫= f) w = f a w1.
Proof. intros Hm. unfold mbind, M_bind. by rewrite Hm. Qed.

Lemma bind_fst_Raise {A B} (m : M bitmap filter A)
  (f : A → M bitmap filter B) (w : world bitmap filter) (e : exn) :
  (m w).1 = Raise e → ((m ≫= f) w).1 = Raise e.
Proof.
  unfold mbind, M_bind. destruct (m w) as [[a|e'|] w1]; try discriminate.
  by intros [= ->].
Qed.

Lemma lift_eq_Ok {A} (r : result A) (a : A) (w : world bitmap filter) :
  r = Ok a → lift r w = (Ok a, w).
Proof. by intros ->. Qed.

Lemma get_align_returns (cell : Cell T) (child : T) :
  align cell ∈ ["left"; "center"; "right"]%string →
  ∃ inner, _get_align cell child = Ok inner.
Proof.
  intros Halign. unfold _get_align. rewrite bool_decide_true by done.
  cbn [py_assert mbind result_bind].
  destruct (decide _); [by eexists|]. destruct (decide _); by eexists.
Qed.

(** X20.  An error of the display is not covered by [raise_errors]: when
    the first item is an image that fits its cell and the terminal answers
    the display request with something that has no [;OK] in it, [show]
    ends with the [KittyAnswerError] of [run_code], whatever
    [raise_errors] and [print_errors] are. *)
Theorem display_error_ends_show (depth fuel : nat) (g : Grid T)
  (cell : nat) (others : list Content) (c r : Cell T) (img : Image bitmap)
  (w : world bitmap filter) (payload code : string) (pre : list string)
  (rest : list event) :
  Axis_getitem (cols g) 0 = Ok c →
  Axis_getitem (rows g) 0 = Ok r →
  align c ∈ ["left"; "center"; "right"]%string →
  align r ∈ ["left"; "center"; "right"]%string →
  heap w !! cell = Some img →
  1 <= (bitmap_size (_pil_image img)).1 <= px (size c) →
  1 <= (bitmap_size (_pil_image img)).2 <= px (size r) →
  save_png (_pil_image img) = Ok payload →
  get_code payload (display_request (-1) img) = Ok code →
  VStr "transmit+display" ∈ ACTIONS_WITH_ANSWER →
  Forall (λ ch, ch ≠ backslash) pre →
  input (term w) = map Key pre ++ Key backslash :: rest →
  contains ";OK" (join EmptyString (pre ++ [backslash])) = false →
  (show_grid depth fuel g (CImage cell :: others) w).1
  = Raise (KittyAnswerError code (join EmptyString (pre ++ [backslash]))).
Proof.
  intros Hc Hr Hac Har Hself Hw Hh Hpng Hcode Hact Hpre Hin Hno.
  assert (Hcontent : _get_content depth fuel g (CImage cell) 0 0 w
            = (Ok (RImage cell, width_of img, height_of img), w)).
  { destruct depth; cbn [_get_content];
      unfold _get_resized_image, try_except, mbind, M_bind, lift, mret, M_ret;
      rewrite Hc, Hr, (resize_unfold _ _ _ _ _ _ _ _ _ _ Hself),
        (target_fits _ _ _ _ _ _ Hself Hw Hh);
      unfold get_image; by rewrite Hself. }
  destruct (get_align_returns r (height_of img) Har) as [inner_y Hy].
  destruct (get_align_returns c (width_of img) Hac) as [inner_x Hx].
  unfold show_grid. apply bind_fst_Raise. cbn [show_loop].
  apply bind_fst_Raise. unfold show_item.
  rewrite (bind_eq_Ok the_term _ w w (term w) eq_refl).
  rewrite (bind_eq_Ok _ _ _ _ _ Hcontent). cbn [fst snd].
  apply bind_fst_Raise. unfold _show_content.
  rewrite (bind_eq_Ok _ _ _ _ _ (lift_eq_Ok _ _ w Hr)).
  rewrite (bind_eq_Ok _ _ _ _ _ (lift_eq_Ok _ _ w Hy)).
  rewrite (bind_eq_Ok the_term _ w w (term w) eq_refl).
  match goal with
  | |- context [print_esc ?args] =>
      rewrite (bind_eq_Ok (print_esc args) _ w (print_esc args w).2 tt eq_refl);
      set (w1 := (print_esc args w).2)
  end.
  apply bind_fst_Raise.
  rewrite (bind_eq_Ok _ _ _ _ _ (lift_eq_Ok _ _ w1 Hc)).
  rewrite (bind_eq_Ok _ _ _ _ _ (lift_eq_Ok _ _ w1 Hx)).
  apply bind_fst_Raise.
  by apply (show_refused _ _ _ _ img w1 payload code pre rest).
Qed.

End GridDisplayMore.

(** ** Runs of the further properties *)

Section MoreRuns.

Import Grid Fixtures Inputs.



Lemma detect_support_outcome_witness :
  ((detect_support refusing_tty).1 = Ok true
   ∧ alarm (detect_support refusing_tty).2 = 0%N)
  ∧ ((detect_support silent_tty).1 = Ok false
     ∧ alarm (detect_support silent_tty).2 = 0%N).
Proof.
  split.
  - destruct (detect_support_outcome refusing_tty probe_code
                ["E"; "N"; "O"; "E"; "N"; "T"]%string [Key "x"%string])
      as [Hanswer _].
    + reflexivity.
    + vm_compute. set_solver.
    + repeat constructor; discriminate.
    + exact (Hanswer eq_refl).
  - destruct (detect_support_outcome silent_tty probe_code
                ["E"%string] [Key "x"%string])
      as [_ Hsilent].
    + reflexivity.
    + vm_compute. set_solver.
    + repeat constructor; discriminate.
    + exact (Hsilent eq_refl).
Defined.

Lemma display_controls_format : formats display_controls.
Proof.
  intros x real [= <-] [= <-] key n Hin.
  assert (Hsmall : Z.abs n < 10 ^ 1).
  { apply elem_of_cons in Hin as [Heq|Hin]; [discriminate|].
    apply elem_of_cons in Hin as [[= -> ->]|Hin]; [reflexivity|].
    apply elem_of_cons in Hin as [[= -> ->]|Hin]; [reflexivity|].
    by apply not_elem_of_nil in Hin. }
  apply (Z.lt_le_trans _ _ _ Hsmall). apply Z.pow_le_mono_r; lia.
Qed.

Lemma get_code_returns_witness :
  ∃ code, get_code "abc" display_controls = Ok code.
Proof.
  apply (get_code_returns "abc" display_controls).
  - intros v [= <-]. exists 5. split; [reflexivity|]. vm_compute.
    split; discriminate.
  - intros v [= <-]. by exists 0.
  - by exists "X"%string.
  - intros name v Hin Hne.
    apply elem_of_cons in Hin as [[= -> ->]|Hin].
    { exists "a"%string. eexists. split; [reflexivity|]. right.
      by exists (VStr "T"). }
    apply elem_of_cons in Hin as [[= -> ->]|Hin].
    { exists "i"%string, []. split; [reflexivity|]. by left. }
    apply elem_of_cons in Hin as [[= -> ->]|Hin]; [done|].
    by apply not_elem_of_nil in Hin.
  - apply display_controls_format.
  - reflexivity.
Defined.

Lemma resize_without_max_never_scales_witness :
  resize 8 0 10 10 None None false "lanczos" wide = (Ok 0%nat, wide)
  ∧ resize 8 0 10 60 None None false "lanczos" wide
    = (Raise AssertionError, wide).
Proof.
  split.
  - rewrite (resize_without_max_never_scales 8 0 10 10 None None false
               "lanczos" wide (image_of 0 (100, 50)));
      [reflexivity..|cbn; lia|cbn; lia|lia|lia].
  - rewrite (resize_without_max_never_scales 8 0 10 60 None None false
               "lanczos" wide (image_of 0 (100, 50)));
      [reflexivity..|cbn; lia|cbn; lia|lia|lia].
Defined.

Lemma resize_frame_witness :
  let run := resize 8 0 1 1 (Some 50) (Some 50) false "lanczos" wide in
  term run.2 = term wide
  ∧ (used_ids wide ⊆ used_ids run.2)
  ∧ (∀ s, s ≠ 0%nat → (s < length (heap wide))%nat →
          heap run.2 !! s = heap wide !! s)
  ∧ (∀ img, heap wide !! 0%nat = Some img →
       ∃ img', heap run.2 !! 0%nat = Some img' ∧ id img' = id img
               ∧ origin img' = origin img
               ∧ _pil_image img' = _pil_image img)
  ∧ (length (heap run.2) = length (heap wide)
     ∨ length (heap run.2) = S (length (heap wide))).
Proof.
  intros run.
  apply (resize_frame 8 0 1 1 (Some 50) (Some 50) false "lanczos" wide
           run.1 run.2).
  apply surjective_pairing.
Defined.

Lemma fixture_scales_exactly : @scales_exactly (Z * Z) string pil.
Proof.
  intros b wh f b'. cbn.
  destruct ((wh.1 <? 0) || (wh.2 <? 0)); [discriminate|]. by intros [= <-].
Qed.

Lemma wide_cache_exact : cache_exact wide.
Proof.
  intros s img wh r Hs Hc. destruct s as [|s]; [|done].
  injection Hs as <-. cbn in Hc. by rewrite lookup_empty in Hc.
Qed.

Lemma resize_keeps_cache_exact_witness :
  let run := resize 8 0 1 1 (Some 50) (Some 50) false "lanczos" wide in
  cache_exact run.2 ∧ ∀ x, run.1 = Ok x → is_Some (heap run.2 !! x).
Proof.
  intros run.
  apply (resize_keeps_cache_exact 8 0 1 1 (Some 50) (Some 50) false
           "lanczos" wide run.1 run.2).
  - apply fixture_scales_exactly.
  - apply wide_cache_exact.
  - apply surjective_pairing.
Defined.

Lemma registered_ids : ids_registered registered.
Proof.
  split.
  - cbn. apply NoDup_singleton.
  - intros img Hin. apply list_elem_of_singleton in Hin as ->. cbn.
    by apply elem_of_singleton.
Qed.

Lemma resize_keeps_ids_distinct_witness :
  ids_registered
    (resize 8 0 1 1 (Some 50) (Some 50) false "lanczos" registered).2.
Proof.
  apply (resize_keeps_ids_distinct 8 0 1 1 (Some 50) (Some 50) false
           "lanczos" registered
           (resize 8 0 1 1 (Some 50) (Some 50) false "lanczos" registered).1).
  - apply registered_ids.
  - cbn [registered used_ids]. rewrite size_singleton. reflexivity.
  - apply surjective_pairing.
Defined.

Lemma wrapping_axis_is_periodic_witness :
  ∃ item,
    Axis_getitem three_columns 1 = Ok (cell_of three_columns 1 item)
    ∧ Axis_getitem three_columns
        (1 + -2 * Z.of_nat (length (data three_columns)))
      = Ok (cell_of three_columns
              (1 + -2 * Z.of_nat (length (data three_columns))) item).
Proof.
  apply (wrapping_axis_is_periodic three_columns 1 (-2)).
  - reflexivity.
  - discriminate.
Defined.

Lemma empty_axis_raises_witness :
  Axis_getitem no_columns 0 = Raise IndexError
  ∧ Axis_getitem no_columns_wrapping 0 = Raise ZeroDivisionError.
Proof.
  split.
  - apply (empty_axis_raises no_columns 0). reflexivity.
  - apply (empty_axis_raises no_columns_wrapping 0). reflexivity.
Defined.

Lemma cells_per_row_parity_always_witness :
  1 <= 2
  ∧ (force_even (even_grid 3) = true → 2 <= 2 ∧ Z.even 2 = true)
  ∧ (force_even (even_grid 3) = false → force_odd (even_grid 3) = true →
     Z.odd 2 = true).
Proof.
  apply (cells_per_row_parity_always 0 (even_grid 3) screen80 2).
  reflexivity.
Defined.

Lemma show_is_row_major_witness :
  let g := grid_of 100 100 (Some 2) (Some 5) in
  let items := [CText "a"; CText "b"; CText "c"]%string in
  (show_loop 8 8 g items (0, 0) (world_of [] [])).1 = Ok ((1, 1), false)
  ∧ (1, 1) = (Z.of_nat (length items) mod 2, Z.of_nat (length items) / 2)
  ∧ (truthy (max_rows g) = true →
     0 <= int_or (max_rows g) 0 →
     Z.of_nat (length items) < 2 * (int_or (max_rows g) 0 + 1)).
Proof.
  intros g items. split; [vm_compute; reflexivity|].
  apply (show_is_row_major 8 8 g 2 items (1, 1) (world_of [] [])
           (show_loop 8 8 g items (0, 0) (world_of [] [])).2).
  - reflexivity.
  - reflexivity.
  - vm_compute. reflexivity.
Defined.


Lemma fitting_image_is_shown_unscaled_witness :
  _get_content 8 8 (grid_of 256 256 None None) (CImage 0) 0 0 wide
  = (Ok (RImage 0, 100, 50), wide).
Proof.
  rewrite (fitting_image_is_shown_unscaled 8 8 (grid_of 256 256 None None)
             0 0 0 {| size := 256; align := "center" |}
             {| size := 256; align := "center" |} (image_of 0 (100, 50))
             wide);
    [reflexivity..|cbn; lia|cbn; lia].
Defined.

Lemma measuring_text_touches_nothing_witness :
  let g := grid_of 100 100 None None in
  (_get_content 8 8 g (CText three_lines) 0 0 wide).2 = wide
  ∧ ∀ shown width height,
      (_get_content 8 8 g (CText three_lines) 0 0 wide).1
      = Ok (shown, width, height) →
      ∃ text longest,
        _get_text g three_lines 0 0 = Ok text
        ∧ shown = RText text
        ∧ longest ∈ splitlines text
        ∧ (∀ line, line ∈ splitlines text → ansilen line <= ansilen longest)
        ∧ width = HSize_cells (ansilen longest)
        ∧ height = VSize_cells (Z.of_nat (length (splitlines text))).
Proof.
  intros g.
  apply (measuring_text_touches_nothing 8 8 g three_lines 0 0 wide).
  reflexivity.
Defined.

Example three_lines_measured :
  (_get_content 8 8 (grid_of 100 100 None None) (CText three_lines) 0 0
     wide).1
  = Ok (RText three_lines, 10, 60).
Proof. vm_compute. reflexivity. Qed.

Lemma wrapped_lists_cannot_be_joined_witness :
  _get_text (even_grid 3) two_lines 0 0 = Raise TypeError.
Proof.
  apply (wrapped_lists_cannot_be_joined (even_grid 3) two_lines 0 0
           {| size := 100; align := "center" |}
           {| size := 100; align := "center" |}).
  - cbn [text_overflow even_grid]. left.
  - reflexivity.
  - reflexivity.
  - reflexivity.
  - intros line. eexists. reflexivity.
Defined.

Lemma text_is_cut_to_the_row_witness :
  let g := grid_of 100 20 None None in
  let r := {| size := 20; align := "center"%string |} in
  ∃ ss : list string,
    two_lines = join (String "010" EmptyString) ss
    ∧ Z.of_nat (length ss)
      = Z.min (cells (size r)) (Z.of_nat (length (split_nl three_lines)))
    ∧ ∀ (i : nat) s, ss !! i = Some s →
        ∃ line c, split_nl three_lines !! i = Some line
                  ∧ Axis_getitem (cols g) 0 = Ok c
                  ∧ ansiwrap (text_overflow g) line (cells (size c))
                      (cut_placeholder g) = Ok (WStr s).
Proof.
  intros g r.
  apply (text_is_cut_to_the_row g three_lines 0 0 r two_lines).
  - reflexivity.
  - discriminate.
  - vm_compute. reflexivity.
Defined.

Lemma display_error_ends_show_witness :
  (show_grid 8 8 (grid_of 256 256 None None) [CImage 0; CNone]
     refusing_world).1
  = Raise (KittyAnswerError refused_code
             (join EmptyString
                (["E"; "N"; "O"; "E"; "N"; "T"]%string ++ [backslash]))).
Proof.
  apply (display_error_ends_show 8 8 (grid_of 256 256 None None) 0 [CNone]
           {| size := 256; align := "center" |}
           {| size := 256; align := "center" |} (image_of 0 (100, 50))
           refusing_world "/tmp/.pixcat-0" refused_code
           ["E"; "N"; "O"; "E"; "N"; "T"]%string [Key "x"%string]).
  - reflexivity.
  - reflexivity.
  - right. left.
  - right. left.
  - reflexivity.
  - cbn. lia.
  - cbn. lia.
  - reflexivity.
  - vm_compute. reflexivity.
  - vm_compute. set_solver.
  - repeat constructor; discriminate.
  - reflexivity.
  - vm_compute. reflexivity.
Defined.

End MoreRuns.
